(** * SparseDNN / SNIG: tiling, weight layout and the BF single-GPU pipeline

    A shallow embedding of
    - the converter's [main] (tiling parameters [COL_BLK], [N_SLAB]), and
    - [snig::BFOneGpu<T>] (constructor, [infer], [_infer_BF],
      [_non_empty_rows])
    together with the properties of the design document that concern them. *)

From stdpp Require Import base numbers list sorting.

Set Default Proof Using "Type".

(** ** Machine integers and the scalar type [T] *)

Module Machine.

Local Open Scope Z_scope.

(** [size_t] is 64 bits wide, [int] is 32 bits wide (two's complement). *)
Definition SIZE_MOD : Z := 2 ^ 64.
Definition SIZE_MAX : Z := 2 ^ 64 - 1.
Definition INT_MAX : Z := 2 ^ 31 - 1.
Definition INT_MOD : Z := 2 ^ 32.

(** Unsigned arithmetic on [size_t] wraps around. *)
Definition size_wrap (z : Z) : Z := z mod SIZE_MOD.
Definition size_add (a b : Z) : Z := size_wrap (a + b).
Definition size_mul (a b : Z) : Z := size_wrap (a * b).

(** Conversion [size_t -> int], as in [rowsY[nnz++] = i]: the value is
    reduced modulo 2^32 into the signed range. *)
Definition int_of_size (z : Z) : Z :=
  let r := z mod INT_MOD in
  if r <=? INT_MAX then r else r - INT_MOD.

(** The template parameter [T]: the [static_assert] of [BFOneGpu] admits
    exactly [float] and [double]. *)
Inductive scalar : Set := Float | Double.

Definition sizeof (T : scalar) : Z :=
  match T with Float => 4 | Double => 8 end.

Definition sizeof_int : Z := 4.
Definition sizeof_float : Z := 4.

(** What a computation can end in besides a value. *)
Inductive fault : Set :=
| SignedOverflow   (* [++max_divisor] at [INT_MAX] *)
| DivisionByZero   (* [x / 0] or [x % 0] *)
| FuelExhausted.   (* artefact of the bounded loop; shown unreachable *)

Inductive outcome (A : Type) : Type :=
| Returns (a : A)
| Faults (f : fault).
Global Arguments Returns {A} a.
Global Arguments Faults {A} f.

End Machine.
Import Machine.

(** ** Bounded [while] loops

    A loop body either leaves the loop with a result or continues with a new
    state.  [loop_nat] runs at most [fuel] iterations; [loop_pos] does the
    same with binary fuel, so that it evaluates on realistic bounds. *)

Section BoundedLoop.

Context {St Res : Type}.
Variable body : St -> Res + St.

Fixpoint loop_nat (fuel : nat) (s : St) : Res + St :=
  match fuel with
  | O => inr s
  | S k =>
      match body s with
      | inl r => inl r
      | inr s' => loop_nat k s'
      end
  end.

Fixpoint loop_pos (fuel : positive) (s : St) : Res + St :=
  match fuel with
  | xH => body s
  | xO p =>
      match loop_pos p s with
      | inl r => inl r
      | inr s' => loop_pos p s'
      end
  | xI p =>
      match body s with
      | inl r => inl r
      | inr s0 =>
          match loop_pos p s0 with
          | inl r => inl r
          | inr s' => loop_pos p s'
          end
      end
  end.

End BoundedLoop.

(** ** Tiling parameters

    The same statement sequence occurs twice in the sources: in the
    converter's [main] and in the constructor of [BFOneGpu<T>]:
<<
    size_t max_num_per_block = props.sharedMemPerBlock / sizeof(T);
    if(num_neurons_per_layer <= max_num_per_block) {
      COL_BLK = num_neurons_per_layer;
    }
    else{
      int max_divisor = 2;
      while((num_neurons_per_layer % max_divisor != 0) ||
            (max_num_per_block < (num_neurons_per_layer / max_divisor))) {
        ++max_divisor;
      }
      COL_BLK = num_neurons_per_layer / max_divisor;
    }
    N_SLAB = num_neurons_per_layer / COL_BLK;
>>
    The converter writes [sizeof(float)] where the engine writes
    [sizeof(T)]. *)

Module Tiling.

Local Open Scope Z_scope.

(** The loop condition. [max_divisor] is a positive [int]; its conversion
    to [size_t] for [%] and [/] keeps its value. *)
Definition keep_searching (num_neurons_per_layer max_num_per_block max_divisor : Z) : bool :=
  negb (num_neurons_per_layer mod max_divisor =? 0)
  || (max_num_per_block <? num_neurons_per_layer / max_divisor).

(** One evaluation of the condition followed, when it holds, by
    [++max_divisor]; incrementing an [int] equal to [INT_MAX] is a signed
    overflow. *)
Definition search_body (num_neurons_per_layer max_num_per_block max_divisor : Z)
  : outcome Z + Z :=
  if keep_searching num_neurons_per_layer max_num_per_block max_divisor then
    if max_divisor =? INT_MAX then inl (Faults SignedOverflow)
    else inr (max_divisor + 1)
  else inl (Returns max_divisor).

(** The [while] loop, started at [max_divisor = 2].  The counter can take
    fewer than 2^31 values, which bounds the number of iterations. *)
Definition search_fuel : positive := 2147483648.

Definition max_divisor_search (num_neurons_per_layer max_num_per_block : Z) : outcome Z :=
  match loop_pos (search_body num_neurons_per_layer max_num_per_block) search_fuel 2 with
  | inl r => r
  | inr _ => Faults FuelExhausted
  end.

Definition checked_div (a b : Z) : outcome Z :=
  if b =? 0 then Faults DivisionByZero else Returns (a / b).

Definition COL_BLK_of (num_neurons_per_layer max_num_per_block : Z) : outcome Z :=
  if num_neurons_per_layer <=? max_num_per_block then
    Returns num_neurons_per_layer
  else
    match max_divisor_search num_neurons_per_layer max_num_per_block with
    | Returns max_divisor => Returns (num_neurons_per_layer / max_divisor)
    | Faults f => Faults f
    end.

(** [(COL_BLK, N_SLAB)] from the neuron count and the budget
    [max_num_per_block]. *)
Definition tiling (num_neurons_per_layer max_num_per_block : Z) : outcome (Z * Z) :=
  match COL_BLK_of num_neurons_per_layer max_num_per_block with
  | Returns COL_BLK =>
      match checked_div num_neurons_per_layer COL_BLK with
      | Returns N_SLAB => Returns (COL_BLK, N_SLAB)
      | Faults f => Faults f
      end
  | Faults f => Faults f
  end.

(** The converter ([main]): the budget is counted in [float]s. *)
Definition converter_tiling (num_neurons_per_layer sharedMemPerBlock : Z) : outcome (Z * Z) :=
  tiling num_neurons_per_layer (sharedMemPerBlock / sizeof_float).

(** The engine ([BFOneGpu<T>::BFOneGpu]): the budget is counted in [T]s. *)
Definition engine_tiling (T : scalar) (num_neurons_per_layer sharedMemPerBlock : Z)
  : outcome (Z * Z) :=
  tiling num_neurons_per_layer (sharedMemPerBlock / sizeof T).

(** [c] is the largest divisor of [n] that fits a budget of [m]. *)
Definition largest_fitting_divisor (n m c : Z) : Prop :=
  1 <= c /\ (c | n) /\ c <= m /\
  forall c', 1 <= c' -> (c' | n) -> c' <= m -> c' <= c.

End Tiling.

(** ** Layout of the pinned weight region

    From the constructor of [BFOneGpu<T>]:
<<
    _p_w_index_len  = num_neurons_per_layer * _N_SLAB + _max_nnz_per_layer + 1;
    if(_p_w_index_len % sizeof(T) != 0){ ++_pad; }
    _pp_w_index_len = _p_w_index_len + _pad;
    _pp_wlen = _pp_w_index_len + (sizeof(T) / sizeof(float)) * _max_nnz_per_layer;
    _pp_wsize = sizeof(int) * (_pp_w_index_len) + sizeof(T) * _max_nnz_per_layer;
    cudaMallocHost(&_h_pinned_weight, _pp_wsize * num_layers);
    std::memset(_h_pinned_weight, 0, _pp_wsize * num_layers);
>>
    All operands are [size_t]. *)

Module Layout.

Local Open Scope Z_scope.

Record layout : Set := {
  _p_w_index_len : Z;
  _pad : Z;
  _pp_w_index_len : Z;
  _pp_wlen : Z;
  _pp_wsize : Z
}.

Definition make (T : scalar) (num_neurons_per_layer _N_SLAB _max_nnz_per_layer : Z)
  : layout :=
  let p_w_index_len :=
    size_add (size_add (size_mul num_neurons_per_layer _N_SLAB) _max_nnz_per_layer) 1 in
  let pad := if negb (p_w_index_len mod sizeof T =? 0) then size_add 0 1 else 0 in
  let pp_w_index_len := size_add p_w_index_len pad in
  {| _p_w_index_len := p_w_index_len;
     _pad := pad;
     _pp_w_index_len := pp_w_index_len;
     _pp_wlen :=
       size_add pp_w_index_len
                (size_mul (sizeof T / sizeof_float) _max_nnz_per_layer);
     _pp_wsize :=
       size_add (size_mul sizeof_int pp_w_index_len)
                (size_mul (sizeof T) _max_nnz_per_layer) |}.

(** Bytes obtained from [cudaMallocHost] and cleared by [memset]. *)
Definition pinned_bytes (L : layout) (num_layers : Z) : Z :=
  size_mul (_pp_wsize L) num_layers.

(** Byte offset, from [_h_pinned_weight], of the [int*] expression
    [_h_pinned_weight + k * _pp_wlen] used as the source of the copy of
    layer [k]. *)
Definition layer_byte_offset (L : layout) (k : Z) : Z :=
  size_mul sizeof_int (size_mul k (_pp_wlen L)).

End Layout.

(** ** Streams, asynchronous work and hazards

    The host issues operations in program order.  Work put on a stream stays
    in flight until that stream (or the device) is synchronised; work on one
    stream is ordered, work on different streams is not.  A hazard is
    recorded whenever an operation is issued while conflicting work of
    another stream is still in flight. *)

Module Streams.

Inductive stream : Set :=
| Stream0          (* [stream[0]]: weight transfers *)
| Stream1          (* [stream[1]]: inference kernels *)
| DefaultStream.

Inductive buffer : Set :=
| BufW (i : nat)       (* [d_W[i]] *)
| BufY (i : nat)       (* [Y[i]] *)
| BufRows (i : nat)    (* [rowsY[i]] *)
| BufRlen (i : nat)    (* [rlenY[i]] *)
| BufResults
| BufPinned.           (* [_h_pinned_weight] *)

(** The operations [_infer_BF] issues, with the buffer slots and the layer
    they name.  [MemcpyAsync dst layer] copies [_pp_wsize] bytes from
    [_h_pinned_weight + layer * _pp_wlen] to [d_W[dst]]. *)
Inductive event : Set :=
| MemcpyAsync (dst layer : nat)
| LaunchInference (layer w y0 rows0 rlen0 y1 rlen1 : nat)
| StreamSynchronize (s : stream)
| NonEmptyRows (rlen rows : nat)
| MemsetY (y : nat)
| LaunchIdentify (y : nat)
| DeviceSynchronize.

Global Instance stream_eq_dec : EqDecision stream.
Proof. solve_decision. Defined.
Global Instance buffer_eq_dec : EqDecision buffer.
Proof. solve_decision. Defined.
Global Instance event_eq_dec : EqDecision event.
Proof. solve_decision. Defined.

(** Buffers an operation may read, and buffers it may write.  A kernel may
    read and write everything it is handed a pointer to. *)
Definition reads (e : event) : list buffer :=
  match e with
  | MemcpyAsync _ _ => [BufPinned]
  | LaunchInference _ w y0 rows0 rlen0 y1 rlen1 =>
      [BufW w; BufY y0; BufRows rows0; BufRlen rlen0; BufY y1; BufRlen rlen1]
  | NonEmptyRows rlen rows => [BufRlen rlen]
  | LaunchIdentify y => [BufY y; BufResults]
  | MemsetY _ | StreamSynchronize _ | DeviceSynchronize => []
  end.

Definition writes (e : event) : list buffer :=
  match e with
  | MemcpyAsync dst _ => [BufW dst]
  | LaunchInference _ w y0 rows0 rlen0 y1 rlen1 =>
      [BufW w; BufY y0; BufRows rows0; BufRlen rlen0; BufY y1; BufRlen rlen1]
  | NonEmptyRows rlen rows => [BufRows rows]
  | MemsetY y => [BufY y]
  | LaunchIdentify y => [BufY y; BufResults]
  | StreamSynchronize _ | DeviceSynchronize => []
  end.

Definition overlap (a b : list buffer) : bool :=
  existsb (fun x => bool_decide (x ∈ b)) a.

(** Two operations conflict when one writes a buffer the other touches. *)
Definition conflict (a b : event) : bool :=
  overlap (writes a) (reads b ++ writes b)
  || overlap (writes b) (reads a).

Record sched : Set := {
  inflight : list (stream * event);
  hazards : list (event * event);
  trace : list event
}.

Definition fresh : sched :=
  {| inflight := []; hazards := []; trace := [] |}.

Definition clashes (e : event) (others : list (stream * event)) : list (event * event) :=
  map (fun p => (e, p.2)) (List.filter (fun p => conflict e p.2) others).

(** Asynchronous work put on stream [s]. *)
Definition enqueue (s : stream) (e : event) (q : sched) : sched :=
  {| inflight := inflight q ++ [(s, e)];
     hazards := hazards q
                ++ clashes e (List.filter (fun p => negb (bool_decide (p.1 = s))) (inflight q));
     trace := trace q ++ [e] |}.

(** An access that takes effect at once, from the host's point of view. *)
Definition immediate (e : event) (q : sched) : sched :=
  {| inflight := inflight q;
     hazards := hazards q ++ clashes e (inflight q);
     trace := trace q ++ [e] |}.

Definition stream_synchronize (s : stream) (q : sched) : sched :=
  {| inflight := List.filter (fun p => negb (bool_decide (p.1 = s))) (inflight q);
     hazards := hazards q;
     trace := trace q ++ [StreamSynchronize s] |}.

Definition device_synchronize (q : sched) : sched :=
  {| inflight := [];
     hazards := hazards q;
     trace := trace q ++ [DeviceSynchronize] |}.

End Streams.

(** ** The engine [BFOneGpu<T>]

    Device and managed buffers are lists of cells ([int] cells hold a [Z],
    activation cells a [T]); a write never changes the size of a buffer.
    The device kernels [bf_inference] and [identify] (SNIG/bf/kernel.hpp) and
    the reader [read_input_binary] (SNIG/utility/reader.hpp) are not part of
    the sources at hand: they are parameters, handed exactly the buffers the
    call sites pass to them.  Every [checkCuda]-guarded call is taken to
    succeed (a failure ends the run).  The effect of an asynchronous
    operation is applied when it is issued; [Streams] keeps track of whether
    that is justified. *)

Module BFOneGpu.

Import Streams.

(** [rowsY[nnz++] = i] inside [for(size_t i = 0; i < num_inputs; ++i)
    if(rlenY[i] > 0)].  [rowsY] holds [int]s, so the [size_t] index is
    narrowed; [nnz] starts at 0.  Accesses past the end of an array are
    undefined in the source: here a read past the end of [rlenY] yields 0
    and a write past the end of [rowsY] is dropped. *)
Definition scan_step (rlenY : list Z) (acc : list Z * nat) (i : nat) : list Z * nat :=
  if (0 <? default 0 (rlenY !! i))%Z
  then (<[acc.2 := int_of_size (Z.of_nat i)]> (acc.1), S (acc.2))
  else acc.

Definition _non_empty_rows (num_inputs : nat) (rlenY rowsY : list Z) : list Z * nat :=
  fold_left (scan_step rlenY) (seq 0 num_inputs) (rowsY, 0).

(** The indices [i < num_inputs] with [rlenY[i] > 0], in increasing
    order. *)
Definition positive_rows (num_inputs : nat) (rlenY : list Z) : list nat :=
  filter (fun i => (0 < default 0 (rlenY !! i))%Z) (seq 0 num_inputs).

(** Overwriting the front of a buffer with [new] cells. *)
Definition store {A} (old new : list A) : list A :=
  take (length old) new ++ drop (length new) old.

(** [cudaMalloc] / [cudaMallocManaged]: [cells] cells with whatever
    [contents] the allocator hands out. *)
Definition cudaMalloc {A} (contents : nat -> A) (cells : nat) : list A :=
  map contents (seq 0 cells).

(** [std::vector<X> v(2)], indexed by an expression [k % 2]. *)
Definition slot {A} (v : A * A) (i : nat) : A :=
  match i with O => v.1 | S _ => v.2 end.
Definition set_slot {A} (v : A * A) (i : nat) (x : A) : A * A :=
  match i with O => (x, v.2) | S _ => (v.1, x) end.

(** The operations issued by one pass through the loop body, and by the
    whole of [_infer_BF], in program order. *)
Definition layer_events (num_layers cur_layer : nat) : list event :=
  (if negb (cur_layer =? num_layers - 1)
   then [MemcpyAsync ((cur_layer + 1) mod 2) (cur_layer + 1)] else [])
  ++ [LaunchInference cur_layer (cur_layer mod 2) (cur_layer mod 2)
                      (cur_layer mod 2) (cur_layer mod 2)
                      ((cur_layer + 1) mod 2) ((cur_layer + 1) mod 2);
      StreamSynchronize Stream1;
      NonEmptyRows ((cur_layer + 1) mod 2) ((cur_layer + 1) mod 2);
      MemsetY (cur_layer mod 2);
      StreamSynchronize Stream0].

Definition pipeline_events (num_layers : nat) : list event :=
  flat_map (layer_events num_layers) (seq 0 num_layers)
  ++ [LaunchIdentify 0; DeviceSynchronize].

(** A batch with one row more than an [int] can index. *)
Definition oversized_batch : nat := Z.to_nat 2147483649.

Section Engine.

Context {T : Type}.

(** The value of type [T] whose bytes are all zero. *)
Variable zeroT : T.

(** Data members of the object, as left by the constructor. *)
Record object : Type := {
  _h_pinned_weight : list Z;
  _bias : T;
  _num_neurons_per_layer : nat;
  _num_layers : nat;
  _COL_BLK : nat;
  _N_SLAB : nat;
  _p_w_index_len : nat;
  _pp_wlen : nat;
  _pp_wsize : nat
}.

(** Launch configuration and scalar arguments of [bf_inference]. *)
Record launch : Type := {
  grid : nat;
  shared_cells : nat;
  arg_nerowsY : nat;
  arg_COL_BLK : nat;
  arg_N_SLAB : nat;
  arg_num_neurons_per_layer : nat;
  colsW_offset : nat;
  valsW_offset : nat;
  arg_bias : T
}.

(** The buffers [bf_inference] is handed pointers to. *)
Record kernel_view : Type := {
  kv_Y0 : list T;
  kv_rowsY0 : list Z;
  kv_rlenY0 : list Z;
  kv_W : list Z;
  kv_Y1 : list T;
  kv_rlenY1 : list Z
}.

Variable bf_inference : launch -> kernel_view -> kernel_view.
Variable identify : nat -> nat -> list T -> list Z -> list T * list Z.
Variable read_input_binary :
  list T -> list Z -> list Z -> list T * list Z * list Z * nat.

Record state : Type := {
  d_W : list Z * list Z;
  Y : list T * list T;
  rowsY : list Z * list Z;
  rlenY : list Z * list Z;
  results : list Z;
  nerowsY : nat;
  gpu : sched
}.

Definition sizeof_int_cells (bytes : nat) : nat := bytes / 4.

(** [cudaMemcpyAsync(d_W[(cur_layer + 1) % 2],
                     _h_pinned_weight + (cur_layer + 1) * (_pp_wlen),
                     _pp_wsize, cudaMemcpyHostToDevice, stream[0])] *)
Definition prefetch (o : object) (cur_layer : nat) (s : state) : state :=
  let dst := (cur_layer + 1) mod 2 in
  let src := drop ((cur_layer + 1) * _pp_wlen o) (_h_pinned_weight o) in
  {| d_W := set_slot (d_W s) dst
              (store (slot (d_W s) dst) (take (sizeof_int_cells (_pp_wsize o)) src));
     Y := Y s; rowsY := rowsY s; rlenY := rlenY s;
     results := results s; nerowsY := nerowsY s;
     gpu := enqueue Stream0 (MemcpyAsync dst (cur_layer + 1)) (gpu s) |}.

(** [bf_inference<T><<<nerowsY, threads, sizeof(T) * _COL_BLK, stream[1]>>>(...)] *)
Definition launch_bf_inference (o : object) (cur_layer : nat) (s : state) : state :=
  let a := cur_layer mod 2 in
  let b := (cur_layer + 1) mod 2 in
  let cfg :=
    {| grid := nerowsY s;
       shared_cells := _COL_BLK o;
       arg_nerowsY := nerowsY s;
       arg_COL_BLK := _COL_BLK o;
       arg_N_SLAB := _N_SLAB o;
       arg_num_neurons_per_layer := _num_neurons_per_layer o;
       colsW_offset := _num_neurons_per_layer o * _N_SLAB o + 1;
       valsW_offset := _p_w_index_len o;
       arg_bias := _bias o |} in
  let v :=
    {| kv_Y0 := slot (Y s) a;
       kv_rowsY0 := slot (rowsY s) a;
       kv_rlenY0 := slot (rlenY s) a;
       kv_W := slot (d_W s) a;
       kv_Y1 := slot (Y s) b;
       kv_rlenY1 := slot (rlenY s) b |} in
  let v' := bf_inference cfg v in
  {| d_W := set_slot (d_W s) a (store (kv_W v) (kv_W v'));
     Y := set_slot (set_slot (Y s) a (store (kv_Y0 v) (kv_Y0 v')))
                   b (store (kv_Y1 v) (kv_Y1 v'));
     rowsY := set_slot (rowsY s) a (store (kv_rowsY0 v) (kv_rowsY0 v'));
     rlenY := set_slot (set_slot (rlenY s) a (store (kv_rlenY0 v) (kv_rlenY0 v')))
                       b (store (kv_rlenY1 v) (kv_rlenY1 v'));
     results := results s; nerowsY := nerowsY s;
     gpu := enqueue Stream1 (LaunchInference cur_layer a a a a b b) (gpu s) |}.

(** [cudaStreamSynchronize(stream[k])] *)
Definition synchronize (k : stream) (s : state) : state :=
  {| d_W := d_W s; Y := Y s; rowsY := rowsY s; rlenY := rlenY s;
     results := results s; nerowsY := nerowsY s;
     gpu := stream_synchronize k (gpu s) |}.

(** [_non_empty_rows(num_inputs, rlenY[(cur_layer + 1) % 2],
                     rowsY[(cur_layer + 1) % 2], nerowsY)] *)
Definition compact_rows (num_inputs cur_layer : nat) (s : state) : state :=
  let b := (cur_layer + 1) mod 2 in
  let r := _non_empty_rows num_inputs (slot (rlenY s) b) (slot (rowsY s) b) in
  {| d_W := d_W s; Y := Y s;
     rowsY := set_slot (rowsY s) b (r.1);
     rlenY := rlenY s; results := results s;
     nerowsY := r.2;
     gpu := immediate (NonEmptyRows b b) (gpu s) |}.

(** [cudaMemset(Y[cur_layer % 2], 0,
                sizeof(T) * num_inputs * _num_neurons_per_layer)] *)
Definition reset_consumed (o : object) (num_inputs cur_layer : nat) (s : state) : state :=
  let a := cur_layer mod 2 in
  {| d_W := d_W s;
     Y := set_slot (Y s) a
            (store (slot (Y s) a)
                   (replicate (num_inputs * _num_neurons_per_layer o) zeroT));
     rowsY := rowsY s; rlenY := rlenY s;
     results := results s; nerowsY := nerowsY s;
     gpu := immediate (MemsetY a) (gpu s) |}.

(** The head of the loop body: the conditional prefetch.
    [_num_layers - 1] is a [size_t] difference; it wraps only for
    [_num_layers = 0], where the body is never entered. *)
Definition before_launch (o : object) (cur_layer : nat) (s : state) : state :=
  if negb (cur_layer =? _num_layers o - 1) then prefetch o cur_layer s else s.

Definition layer (o : object) (num_inputs : nat) (s : state) (cur_layer : nat) : state :=
  let s1 := before_launch o cur_layer s in
  let s2 := launch_bf_inference o cur_layer s1 in
  let s3 := synchronize Stream1 s2 in
  let s4 := compact_rows num_inputs cur_layer s3 in
  let s5 := reset_consumed o num_inputs cur_layer s4 in
  synchronize Stream0 s5.

(** [for(size_t cur_layer = 0; cur_layer < k; ++cur_layer)] *)
Definition run_layers (o : object) (num_inputs k : nat) (s : state) : state :=
  fold_left (layer o num_inputs) (seq 0 k) s.

(** [cudaStreamCreate] twice: two streams with nothing in flight. *)
Definition create_streams (s : state) : state :=
  {| d_W := d_W s; Y := Y s; rowsY := rowsY s; rlenY := rlenY s;
     results := results s; nerowsY := nerowsY s;
     gpu := fresh |}.

(** [identify<T><<<16, 512>>>(Y[0], num_inputs, _num_neurons_per_layer,
    results); cudaDeviceSynchronize()] *)
Definition launch_identify (o : object) (num_inputs : nat) (s : state) : state :=
  let r := identify num_inputs (_num_neurons_per_layer o) (slot (Y s) 0) (results s) in
  {| d_W := d_W s;
     Y := set_slot (Y s) 0 (store (slot (Y s) 0) (r.1));
     rowsY := rowsY s; rlenY := rlenY s;
     results := store (results s) (r.2);
     nerowsY := nerowsY s;
     gpu := device_synchronize (enqueue DefaultStream (LaunchIdentify 0) (gpu s)) |}.

(** The state in which [identify] is launched. *)
Definition layers_done (o : object) (num_inputs : nat) (s : state) : state :=
  run_layers o num_inputs (_num_layers o) (create_streams s).

Definition _infer_BF (o : object) (num_inputs : nat) (s : state) : state :=
  launch_identify o num_inputs (layers_done o num_inputs s).

(** The state in which the kernel of layer [cur_layer] is launched. *)
Definition at_launch (o : object) (num_inputs cur_layer : nat) (s : state) : state :=
  before_launch o cur_layer (run_layers o num_inputs cur_layer (create_streams s)).

(** What the allocator hands out for [d_W[k]] and [Y[k]]. *)
Record uninitialised : Type := {
  junk_W : nat -> nat -> Z;
  junk_Y : nat -> nat -> T
}.

(** [infer] up to the call of [_infer_BF]: [d_W] and [Y] are allocated
    and not cleared, [d_W[0]] receives layer 0, [rowsY], [rlenY] and
    [results] are cleared, [read_input_binary] fills [Y[0]], [rlenY[0]],
    [rowsY[0]] and [nerowsY]. *)
Definition preprocess (o : object) (u : uninitialised) (num_inputs : nat) : state :=
  let wcells := sizeof_int_cells (_pp_wsize o) in
  let cells := num_inputs * _num_neurons_per_layer o in
  let W0 := store (cudaMalloc (junk_W u 0) wcells) (take wcells (_h_pinned_weight o)) in
  let W1 := cudaMalloc (junk_W u 1) wcells in
  let Y0 := cudaMalloc (junk_Y u 0) cells in
  let Y1 := cudaMalloc (junk_Y u 1) cells in
  let zeros := replicate num_inputs 0%Z in
  let r := read_input_binary Y0 zeros zeros in
  {| d_W := (W0, W1);
     Y := (store Y0 (r.1.1.1), Y1);
     rowsY := (store zeros (r.1.2), zeros);
     rlenY := (store zeros (r.1.1.2), zeros);
     results := zeros;
     nerowsY := r.2;
     gpu := fresh |}.

Definition infer (o : object) (u : uninitialised) (num_inputs : nat) : state :=
  _infer_BF o num_inputs (preprocess o u num_inputs).

Definition all_zero (buf : list T) : Prop := Forall (fun v => v = zeroT) buf.

End Engine.

End BFOneGpu.

(** ** The device kernel, from the design document *)

Module KernelSpec.

Import BFOneGpu.

Section Spec.

Context {T : Type}.

(** The floating-point value [relu(Σ_k x[r][k]·W[k][n] + bias)] of neuron
    [n], given the packed weights, the bias and the input row; and the
    test [v > 0] that counts an activation as nonzero. *)
Variable neuron : list Z -> T -> list T -> nat -> T.
Variable nonzero : T -> bool.

(** Modelled from the spec: the device kernel [bf_inference] of
    SNIG/bf/kernel.hpp, which is not among the sources.  "Inputs:
    active-row list, row lengths, packed weight triple, tile width, slab
    count, scalar bias, input activation buffer.  Output: next-stage
    activations for active rows and this stage's row-length array.  For
    active row r and neuron n, y[r][n] = relu(Σ x[r][k]·W[k][n] + bias)."
    One thread group is assigned per active row, that is per entry of
    the first [nerowsY] cells of the row list; the group of a row writes
    the row's activations and the row's length, the number of its nonzero
    activations in this stage.  No group is assigned to a row that is not
    active: its cells of both output arrays keep what they held, and a
    launch with no active row writes nothing. *)
Definition bf_inference (cfg : @launch T) (v : @kernel_view T) : @kernel_view T :=
  let n := arg_num_neurons_per_layer cfg in
  let active := take (arg_nerowsY cfg) (kv_rowsY0 v) in
  let is_active (r : nat) := bool_decide (Z.of_nat r ∈ active) in
  let x (r : nat) := take n (drop (r * n) (kv_Y0 v)) in
  let y (r : nat) (j : nat) := neuron (kv_W v) (arg_bias cfg) (x r) j in
  {| kv_Y0 := kv_Y0 v;
     kv_rowsY0 := kv_rowsY0 v;
     kv_rlenY0 := kv_rlenY0 v;
     kv_W := kv_W v;
     kv_Y1 := imap (fun c old => if is_active (c / n) then y (c / n) (c mod n) else old)
                   (kv_Y1 v);
     kv_rlenY1 := imap (fun r old =>
                          if is_active r
                          then Z.of_nat (length (List.filter nonzero (map (y r) (seq 0 n))))
                          else old)
                       (kv_rlenY1 v) |}.

End Spec.

End KernelSpec.

(** ** A small instance

    Integer stand-ins for the activations, used where a statement is
    exercised on concrete data: two input rows of two neurons each, the
    second row empty. *)

Module Sample.

Import BFOneGpu.

Definition neuron (W : list Z) (bias : Z) (x : list Z) (j : nat) : Z :=
  Z.max 0 (default 0%Z (x !! j) + bias).

Definition nonzero (v : Z) : bool := (0 <? v)%Z.

Definition kernel : @launch Z -> @kernel_view Z -> @kernel_view Z :=
  KernelSpec.bf_inference neuron nonzero.

(** Index of the first maximum of a row. *)
Definition argmax (row : list Z) : Z :=
  (fold_left (fun (acc : Z * Z * Z) v =>
                let '(best, at_, i) := acc in
                if (best <? v)%Z then (v, i, i + 1)%Z else (best, at_, i + 1)%Z)
             row (-1, 0, 0)%Z).1.2.

(** Modelled from the spec: the device kernel [identify] of
    SNIG/bf/kernel.hpp, which is not among the sources.  "A reduction step
    selects, per row, the neuron index of maximum activation as the predicted
    class." *)
Definition identify (num_inputs neurons : nat) (target : list Z) (results : list Z)
  : list Z * list Z :=
  (target,
   map (fun r => argmax (take neurons (drop (r * neurons) target))) (seq 0 num_inputs)).

Definition read_input (Y0 rlen rows : list Z) : list Z * list Z * list Z * nat :=
  ([0; 1; 0; 0]%Z, [1; 0]%Z, [0]%Z, 1).

Definition engine (num_layers : nat) : @object Z :=
  {| _h_pinned_weight := replicate (6 * num_layers) 0%Z;
     _bias := 0%Z;
     _num_neurons_per_layer := 2;
     _num_layers := num_layers;
     _COL_BLK := 2;
     _N_SLAB := 1;
     _p_w_index_len := 4;
     _pp_wlen := 6;
     _pp_wsize := 24 |}.

Definition garbage : @uninitialised Z :=
  {| junk_W := fun _ _ => 7%Z; junk_Y := fun _ _ => 7%Z |}.

(** A batch of two rows, both with one nonzero entry, and a network with
    bias [-1]: the entry [1] of row 1 is cut to zero by layer 0, the entry
    [5] of row 0 lasts for five layers. *)
Definition read_two_rows (Y0 rlen rows : list Z) : list Z * list Z * list Z * nat :=
  ([0; 5; 0; 1]%Z, [1; 1]%Z, [0; 1]%Z, 2).

Definition fading_engine (num_layers : nat) : @object Z :=
  {| _h_pinned_weight := replicate (6 * num_layers) 0%Z;
     _bias := (-1)%Z;
     _num_neurons_per_layer := 2;
     _num_layers := num_layers;
     _COL_BLK := 2;
     _N_SLAB := 1;
     _p_w_index_len := 4;
     _pp_wlen := 6;
     _pp_wsize := 24 |}.

End Sample.

(** ** The converter's [main]

    After the options are parsed and the tiling parameters are computed,
    [main] calls the conversion routine [tsv_file_to_binary_file<float>]
    (SparseDNN/utility/reader.hpp, not among the sources) for the weights, the
    input and the golden files:
<<
    tsv_file_to_binary_file<float>(weight_path, num_layers,
      num_neurons_per_layer, num_neurons_per_layer, COL_BLK, N_SLAB, 100000);
    tsv_file_to_binary_file<float>(input_path, 60000, num_neurons_per_layer);
    if(!golden_all){
      tsv_file_to_binary_file<float>(golden_path, num_neurons_per_layer,
                                     num_layers, 60000);
    }
    else{
      for(int i = 120; i <= 1920; i *= 4){
        tsv_file_to_binary_file<float>(golden_path, num_neurons_per_layer,
                                       i, 60000);
      }
    }
>>
    The calls are recorded with their numeric arguments, in program order. *)

Module Converter.

Local Open Scope Z_scope.

Inductive call : Set :=
| ConvertWeights (num_layers rows cols COL_BLK N_SLAB estimate : Z)
| ConvertInput (rows cols : Z)
| ConvertGolden (num_neurons_per_layer num_layers rows : Z).

(** One pass of [for(int i = 120; i <= 1920; i *= 4)]: the test, the call,
    and [i *= 4] on an [int]. *)
Definition golden_body (num_neurons_per_layer : Z) (st : Z * list call)
  : outcome (list call) + (Z * list call) :=
  if st.1 <=? 1920 then
    if INT_MAX <? st.1 * 4 then inl (Faults SignedOverflow)
    else inr (st.1 * 4, st.2 ++ [ConvertGolden num_neurons_per_layer st.1 60000])
  else inl (Returns st.2).

(** An [int] counter that is multiplied by 4 from 120 on leaves the loop or
    overflows within 16 passes. *)
Definition golden_fuel : positive := 16.

Definition golden_loop (num_neurons_per_layer : Z) (calls : list call)
  : outcome (list call) :=
  match loop_pos (golden_body num_neurons_per_layer) golden_fuel (120, calls) with
  | inl r => r
  | inr _ => Faults FuelExhausted
  end.

(** [main], from the parsed options and the shared-memory capacity the
    device reports. *)
Definition main (num_neurons_per_layer num_layers : Z) (golden_all : bool)
    (sharedMemPerBlock : Z) : outcome (list call) :=
  match Tiling.converter_tiling num_neurons_per_layer sharedMemPerBlock with
  | Faults f => Faults f
  | Returns (COL_BLK, N_SLAB) =>
      let calls :=
        [ConvertWeights num_layers num_neurons_per_layer num_neurons_per_layer
                        COL_BLK N_SLAB 100000;
         ConvertInput 60000 num_neurons_per_layer] in
      if negb golden_all then
        Returns (calls ++ [ConvertGolden num_neurons_per_layer num_layers 60000])
      else golden_loop num_neurons_per_layer calls
  end.

End Converter.

(** ** Reading a trace *)

Module TraceView.

Import Streams.

(** The layers whose kernel is launched, in the order of the launches. *)
Definition launched_layer (e : event) : option nat :=
  match e with
  | LaunchInference layer _ _ _ _ _ _ => Some layer
  | _ => None
  end.

Definition launched_layers (tr : list event) : list nat := omap launched_layer tr.

End TraceView.

(** * Properties *)

(** ** Bounded loops *)

Section BoundedLoopFacts.

Context {St Res : Type}.
Variable body : St -> Res + St.

Lemma loop_nat_add (a b : nat) (s : St) :
  loop_nat body (a + b) s =
  match loop_nat body a s with
  | inl r => inl r
  | inr s' => loop_nat body b s'
  end.
Proof.
  revert s. induction a as [|a IH]; intros s; simpl; [reflexivity|].
  destruct (body s) as [r|s']; [reflexivity|]. apply IH.
Qed.

Lemma loop_pos_nat (p : positive) (s : St) :
  loop_pos body p s = loop_nat body (Pos.to_nat p) s.
Proof.
  revert s. induction p as [p IH|p IH|]; intros s.
  - rewrite Pos2Nat.inj_xI. simpl loop_pos.
    replace (S (2 * Pos.to_nat p)) with (1 + (Pos.to_nat p + Pos.to_nat p))%nat by lia.
    rewrite loop_nat_add. simpl loop_nat at 1.
    destruct (body s) as [r|s0]; [reflexivity|].
    rewrite loop_nat_add, <- IH.
    destruct (loop_pos body p s0) as [r|s']; [reflexivity|]. apply IH.
  - rewrite Pos2Nat.inj_xO. simpl loop_pos.
    replace (2 * Pos.to_nat p)%nat with (Pos.to_nat p + Pos.to_nat p)%nat by lia.
    rewrite loop_nat_add, <- IH.
    destruct (loop_pos body p s) as [r|s']; [reflexivity|]. apply IH.
  - simpl. destruct (body s); reflexivity.
Qed.

End BoundedLoopFacts.

(** ** Tiling *)

Section TilingFacts.

Import Tiling.
Local Open Scope Z_scope.

Example tiling_1024 : tiling 1024 12288 = Returns (1024, 1).
Proof. vm_compute. reflexivity. Qed.

Example tiling_65536 : tiling 65536 12288 = Returns (8192, 8).
Proof. vm_compute. reflexivity. Qed.

Example tiling_prime : tiling 12289 12288 = Returns (1, 12289).
Proof. vm_compute. reflexivity. Qed.

Lemma keep_searching_false (n m d : Z) :
  keep_searching n m d = false <-> n mod d = 0 /\ n / d <= m.
Proof.
  unfold keep_searching. rewrite orb_false_iff, negb_false_iff.
  rewrite Z.eqb_eq, Z.ltb_ge. reflexivity.
Qed.

(** The loop leaves at the first counter value at which the condition
    fails, provided the counter gets there. *)
Lemma search_run_found (n m : Z) (fuel : nat) (d d1 : Z) :
  d <= d1 <= INT_MAX -> d1 - d < Z.of_nat fuel ->
  keep_searching n m d1 = false ->
  (forall d', d <= d' < d1 -> keep_searching n m d' = true) ->
  loop_nat (search_body n m) fuel d = inl (Returns d1).
Proof.
  revert d. induction fuel as [|fuel IH]; intros d Hd Hfuel Hstop Hkeep; [lia|].
  simpl. unfold search_body at 1.
  destruct (Z.eq_dec d d1) as [->|Hne].
  - rewrite Hstop. reflexivity.
  - rewrite Hkeep by lia.
    destruct (Z.eqb_spec d INT_MAX) as [->|_]; [lia|].
    apply IH; [lia|lia|exact Hstop|]. intros d' Hd'. apply Hkeep. lia.
Qed.

(** When the condition holds for every value an [int] counter can take,
    the increment overflows. *)
Lemma search_run_overflow (n m : Z) (fuel : nat) (d : Z) :
  d <= INT_MAX -> INT_MAX - d < Z.of_nat fuel ->
  (forall d', d <= d' <= INT_MAX -> keep_searching n m d' = true) ->
  loop_nat (search_body n m) fuel d = inl (Faults SignedOverflow).
Proof.
  revert d. induction fuel as [|fuel IH]; intros d Hd Hfuel Hkeep; [lia|].
  simpl. unfold search_body at 1. rewrite Hkeep by lia.
  destruct (Z.eqb_spec d INT_MAX) as [->|Hne]; [reflexivity|].
  apply IH; [lia|lia|]. intros d' Hd'. apply Hkeep. lia.
Qed.

Lemma search_fuel_value : Z.of_nat (Pos.to_nat search_fuel) = INT_MAX + 1.
Proof. rewrite positive_nat_Z. reflexivity. Qed.

Lemma max_divisor_search_found (n m d1 : Z) :
  2 <= d1 <= INT_MAX ->
  keep_searching n m d1 = false ->
  (forall d', 2 <= d' < d1 -> keep_searching n m d' = true) ->
  max_divisor_search n m = Returns d1.
Proof.
  intros Hd Hstop Hkeep. unfold max_divisor_search.
  pose proof (search_run_found n m (Pos.to_nat search_fuel) 2 d1) as Hrun.
  rewrite search_fuel_value in Hrun.
  rewrite loop_pos_nat, Hrun; [reflexivity|lia|lia|exact Hstop|exact Hkeep].
Qed.

Lemma max_divisor_search_overflow (n m : Z) :
  (forall d', 2 <= d' <= INT_MAX -> keep_searching n m d' = true) ->
  max_divisor_search n m = Faults SignedOverflow.
Proof.
  intros Hkeep. unfold max_divisor_search.
  pose proof (search_run_overflow n m (Pos.to_nat search_fuel) 2) as Hrun.
  rewrite search_fuel_value in Hrun.
  rewrite loop_pos_nat, Hrun; [reflexivity|unfold INT_MAX; lia|lia|exact Hkeep].
Qed.

(** The loop never runs out of iterations: the bound is an artefact. *)
Lemma max_divisor_search_total (n m : Z) :
  max_divisor_search n m <> Faults FuelExhausted.
Proof.
  unfold max_divisor_search. rewrite loop_pos_nat.
  assert (H : forall fuel d, 2 <= d <= INT_MAX -> INT_MAX - d < Z.of_nat fuel ->
            exists r, loop_nat (search_body n m) fuel d = inl r /\ r <> Faults FuelExhausted).
  { induction fuel as [|fuel IH]; intros d Hd Hfuel; [lia|].
    simpl. unfold search_body at 1.
    destruct (keep_searching n m d).
    - destruct (Z.eqb_spec d INT_MAX) as [->|Hne]; [eexists; split; [reflexivity|discriminate]|].
      apply IH; lia.
    - eexists; split; [reflexivity|discriminate]. }
  destruct (H (Pos.to_nat search_fuel) 2) as (r & -> & Hr); [unfold INT_MAX; lia| |exact Hr].
  rewrite search_fuel_value. lia.
Qed.

(** A counter value at which the condition fails has a least one below. *)
Lemma least_stop (n m : Z) (k : nat) (d dstar : Z) :
  d <= dstar -> dstar - d <= Z.of_nat k ->
  keep_searching n m dstar = false ->
  exists d1, d <= d1 <= dstar /\ keep_searching n m d1 = false /\
             forall d', d <= d' < d1 -> keep_searching n m d' = true.
Proof.
  revert d. induction k as [|k IH]; intros d Hd Hk Hstop.
  - exists dstar. split; [lia|]. split; [exact Hstop|]. intros d' Hd'. lia.
  - destruct (keep_searching n m d) eqn:Hkd.
    + assert (d <> dstar) by congruence.
      destruct (IH (d + 1)) as (d1 & Hd1 & Hs1 & Hk1); [lia|lia|exact Hstop|].
      exists d1. split; [lia|]. split; [exact Hs1|].
      intros d' Hd'. destruct (Z.eq_dec d' d) as [->|]; [exact Hkd|apply Hk1; lia].
    + exists d. split; [lia|]. split; [exact Hkd|]. intros d' Hd'. lia.
Qed.

Lemma tiling_fits (n m : Z) :
  1 <= n -> n <= m -> tiling n m = Returns (n, n / n).
Proof.
  intros Hn Hle. unfold tiling, COL_BLK_of, checked_div.
  destruct (Z.leb_spec n m); [|lia].
  destruct (Z.eqb_spec n 0); [lia|]. reflexivity.
Qed.

(** In the [else] branch the first counter value at which the loop stops
    decides the result. *)
Lemma tiling_search (n m d1 : Z) :
  m < n -> 2 <= d1 <= n ->
  keep_searching n m d1 = false ->
  (forall d', 2 <= d' < d1 -> keep_searching n m d' = true) ->
  tiling n m =
  if d1 <=? INT_MAX then Returns (n / d1, n / (n / d1)) else Faults SignedOverflow.
Proof.
  intros Hnm Hd Hstop Hkeep. unfold tiling, COL_BLK_of.
  destruct (Z.leb_spec n m); [lia|].
  destruct (Z.leb_spec d1 INT_MAX) as [Hle|Hgt].
  - rewrite (max_divisor_search_found n m d1) by (auto; lia).
    unfold checked_div.
    apply keep_searching_false in Hstop as [Hmod _].
    apply Z.mod_divide in Hmod; [|lia]. destruct Hmod as [q Hq].
    assert (n / d1 = q) as -> by (subst n; apply Z.div_mul; lia).
    destruct (Z.eqb_spec q 0); [nia|]. reflexivity.
  - rewrite max_divisor_search_overflow; [reflexivity|].
    intros d' Hd'. apply Hkeep. lia.
Qed.

(** Existence of the first stopping value, and what it means for the
    divisors of [n]. *)
Lemma first_stop_exists (n m : Z) :
  1 <= m -> m < n ->
  exists d1, 2 <= d1 <= n /\ keep_searching n m d1 = false /\
             (forall d', 2 <= d' < d1 -> keep_searching n m d' = true) /\
             largest_fitting_divisor n m (n / d1) /\ n / (n / d1) = d1.
Proof.
  intros Hm Hnm.
  assert (Hn : keep_searching n m n = false).
  { apply keep_searching_false. rewrite Z.mod_same, Z.div_same by lia. lia. }
  destruct (least_stop n m (Z.to_nat (n - 2)) 2 n) as (d1 & Hd1 & Hstop & Hkeep);
    [lia|lia|exact Hn|].
  exists d1. split; [exact Hd1|]. split; [exact Hstop|]. split; [exact Hkeep|].
  apply keep_searching_false in Hstop as [Hmod Hfit].
  apply Z.mod_divide in Hmod; [|lia]. destruct Hmod as [c Hc].
  assert (Hdiv : n / d1 = c) by (subst n; apply Z.div_mul; lia).
  rewrite Hdiv in *.
  assert (Hc1 : 1 <= c) by nia.
  split.
  - split; [exact Hc1|]. split; [exists d1; lia|]. split; [exact Hfit|].
    intros c' Hc' [d' Hd'] Hfit'.
    assert (Hd'2 : 2 <= d') by nia.
    assert (Hstop' : keep_searching n m d' = false).
    { apply keep_searching_false. split.
      - apply Z.mod_divide; [lia|]. exists c'. lia.
      - replace n with (c' * d') by lia. rewrite Z.div_mul by lia. exact Hfit'. }
    assert (Hle : d1 <= d').
    { destruct (Z.le_gt_cases d1 d') as [|Hlt]; [assumption|].
      rewrite Hkeep in Hstop' by lia. discriminate. }
    nia.
  - subst n. rewrite Z.mul_comm. apply Z.div_mul. lia.
Qed.

End TilingFacts.

Section TilingClaims.

Import Tiling.
Local Open Scope Z_scope.

(** C1 (amended).  For every [neurons_per_layer >= 1] and every budget
    [max_num_per_block >= 1]: when [neurons_per_layer] fits the budget the
    computation returns [COL_BLK = neurons_per_layer] and [N_SLAB = 1]; in
    every case there is a largest divisor [c] of [neurons_per_layer] that
    fits the budget, and whenever the slab count [neurons_per_layer / c] is
    at most [INT_MAX] (so in particular whenever
    [neurons_per_layer <= INT_MAX]) the computation returns [COL_BLK = c]
    and [N_SLAB = neurons_per_layer / c].  No error path is involved: with
    a budget of at least 1 the divisor [neurons_per_layer] always yields a
    fitting tile of width 1. *)
Theorem tiling_largest_fitting_divisor (n m : Z) :
  1 <= n -> 1 <= m ->
  (n <= m -> tiling n m = Returns (n, 1)) /\
  exists c, largest_fitting_divisor n m c /\
            (n <= m -> c = n) /\
            (n / c <= INT_MAX -> tiling n m = Returns (c, n / c)).
Proof.
  intros Hn Hm. split.
  { intros Hfit. rewrite tiling_fits, Z.div_same by lia. reflexivity. }
  destruct (Z.le_gt_cases n m) as [Hfit|Hbig].
  - exists n. split; [|split].
    + split; [exact Hn|]. split; [apply Z.divide_refl|]. split; [exact Hfit|].
      intros c' Hc' Hdiv _. apply Z.divide_pos_le; [lia|exact Hdiv].
    + reflexivity.
    + intros _. apply tiling_fits; assumption.
  - destruct (first_stop_exists n m Hm Hbig) as (d1 & Hd1 & Hstop & Hkeep & Hlarge & Hslab).
    exists (n / d1). split; [exact Hlarge|]. split; [lia|].
    rewrite Hslab. intros Hint.
    rewrite (tiling_search n m d1 Hbig Hd1 Hstop Hkeep), Hslab.
    destruct (Z.leb_spec d1 INT_MAX); [reflexivity|lia].
Qed.

Lemma tiling_largest_fitting_divisor_witness :
  exists c, largest_fitting_divisor 65536 12288 c /\
            tiling 65536 12288 = Returns (c, 65536 / c).
Proof.
  destruct (tiling_largest_fitting_divisor 65536 12288) as (_ & c & Hc & _ & Hres);
    [lia|lia|].
  exists c. split; [exact Hc|]. apply Hres.
  destruct Hc as (Hc1 & _).
  transitivity 65536; [|unfold INT_MAX; lia].
  apply Z.div_le_upper_bound; nia.
Defined.

(** When the slab count of the largest fitting divisor exceeds [INT_MAX],
    the [int] counter is incremented past [INT_MAX]. *)
Lemma tiling_counter_overflow (n m : Z) :
  1 <= m -> m < n ->
  (forall d, 2 <= d <= INT_MAX -> m < n / d) ->
  tiling n m = Faults SignedOverflow.
Proof.
  intros Hm Hnm Hall. unfold tiling, COL_BLK_of.
  destruct (Z.leb_spec n m); [lia|].
  rewrite max_divisor_search_overflow; [reflexivity|].
  intros d Hd. unfold keep_searching.
  apply orb_true_iff. right. apply Z.ltb_lt. apply Hall. exact Hd.
Qed.

(** C1, as stated, fails: 2^45 neurons per layer on an accelerator with
    48 KiB of shared memory per block.  Every divisor an [int] can hold
    leaves a tile of more than 12288 cells. *)
Lemma tiling_int_counter_overflows :
  1 <= 35184372088832 <= SIZE_MAX /\
  1 <= 49152 / sizeof Float /\
  engine_tiling Float 35184372088832 49152 = Faults SignedOverflow /\
  converter_tiling 35184372088832 49152 = Faults SignedOverflow.
Proof.
  assert (H : tiling 35184372088832 12288 = Faults SignedOverflow).
  { apply tiling_counter_overflow; [lia|lia|].
    intros d Hd.
    assert (35184372088832 / INT_MAX <= 35184372088832 / d)
      by (apply Z.div_le_compat_l; unfold INT_MAX in *; lia).
    assert (35184372088832 / INT_MAX = 16384) by reflexivity.
    lia. }
  split; [unfold SIZE_MAX; lia|].
  split; [change (49152 / sizeof Float) with 12288; lia|].
  split; exact H.
Qed.

(** C2, as stated, fails for [T = double]: the converter counts the budget
    in [float]s whatever [T] is. *)
Lemma tiling_double_disagrees :
  converter_tiling 8192 49152 = Returns (8192, 1) /\
  engine_tiling Double 8192 49152 = Returns (4096, 2).
Proof. split; vm_compute; reflexivity. Qed.

(** C2 (amended).  For every neuron count and every shared-memory capacity
    reported by the accelerator, the engine and the converter derive the same
    outcome, hence the same [(COL_BLK, N_SLAB)], when [T = float]; and also
    when [T = double] provided [num_neurons_per_layer] fits the engine's
    budget [sharedMemPerBlock / sizeof(double)] (both then take
    [COL_BLK = num_neurons_per_layer]). *)
Theorem tiling_agreement (T : scalar) (num_neurons_per_layer sharedMemPerBlock : Z) :
  0 <= sharedMemPerBlock ->
  T = Float \/ num_neurons_per_layer <= sharedMemPerBlock / sizeof T ->
  engine_tiling T num_neurons_per_layer sharedMemPerBlock
  = converter_tiling num_neurons_per_layer sharedMemPerBlock.
Proof.
  intros Hcap Hcase. unfold engine_tiling, converter_tiling.
  destruct T; [reflexivity|].
  destruct Hcase as [Hfloat|Hfits]; [discriminate Hfloat|].
  assert (Hbudget : sharedMemPerBlock / sizeof Double <= sharedMemPerBlock / sizeof_float)
    by (apply Z.div_le_compat_l; simpl; unfold sizeof_float; lia).
  unfold tiling, COL_BLK_of.
  destruct (Z.leb_spec num_neurons_per_layer (sharedMemPerBlock / sizeof Double)); [|lia].
  destruct (Z.leb_spec num_neurons_per_layer (sharedMemPerBlock / sizeof_float)); [|lia].
  reflexivity.
Qed.

Lemma tiling_agreement_witness :
  engine_tiling Double 4096 49152 = converter_tiling 4096 49152
  /\ engine_tiling Float 65536 49152 = converter_tiling 65536 49152.
Proof.
  split.
  - apply tiling_agreement; [lia|]. right. vm_compute. discriminate.
  - apply tiling_agreement; [lia|]. left. reflexivity.
Defined.

End TilingClaims.

(** ** Layout of the pinned weight region *)

Section LayoutClaims.

Import Layout.
Local Open Scope Z_scope.

Lemma size_wrap_range (z : Z) : 0 <= size_wrap z <= SIZE_MAX.
Proof.
  unfold size_wrap, SIZE_MAX, SIZE_MOD.
  pose proof (Z.mod_pos_bound z (2 ^ 64)). lia.
Qed.

Lemma stride_arith (pp c s nnz : Z) :
  s = sizeof_int * c ->
  size_mul sizeof_int (size_add pp (size_mul c nnz))
  = size_add (size_mul sizeof_int pp) (size_mul s nnz).
Proof.
  intros ->. unfold size_add, size_mul, size_wrap, sizeof_int, SIZE_MOD.
  rewrite Z.mul_mod_idemp_r by discriminate.
  rewrite <- Z.add_mod by discriminate.
  rewrite Z.mul_add_distr_l.
  rewrite <- Z.add_mod_idemp_r by discriminate.
  rewrite Z.mul_mod_idemp_r by discriminate.
  rewrite Z.add_mod_idemp_r by discriminate.
  f_equal. lia.
Qed.

Lemma stride_in_bytes (T : scalar) (n N_SLAB nnz : Z) :
  let L := make T n N_SLAB nnz in
  size_mul sizeof_int (_pp_wlen L) = _pp_wsize L.
Proof.
  simpl. apply stride_arith. destruct T; reflexivity.
Qed.

Lemma layer_offset_in_bytes (L : layout) (k : Z) :
  size_mul sizeof_int (_pp_wlen L) = _pp_wsize L ->
  layer_byte_offset L k = size_mul k (_pp_wsize L).
Proof.
  intros <-. unfold layer_byte_offset, size_mul, size_wrap, SIZE_MOD.
  rewrite !Z.mul_mod_idemp_r by discriminate. f_equal. lia.
Qed.

(** C10 (amended).  For [T] either [float] or [double] and all values of
    the [size_t] operands, [sizeof(int) * _pp_wlen == _pp_wsize] in
    [size_t] arithmetic.  Hence, for every layer index [k] in
    [[0, num_layers)], the byte offset of [_h_pinned_weight + k * _pp_wlen]
    is [k * _pp_wsize] modulo 2^64; and provided the allocation size
    [_pp_wsize * num_layers] is not reduced modulo 2^64, that offset is the
    exact start of the [k]-th block of [_pp_wsize] bytes, which lies
    inside the allocated and cleared region. *)
Theorem pinned_layout_stride (T : scalar) (n N_SLAB nnz num_layers k : Z) :
  0 <= k < num_layers ->
  let L := make T n N_SLAB nnz in
  size_mul sizeof_int (_pp_wlen L) = _pp_wsize L /\
  layer_byte_offset L k = size_mul k (_pp_wsize L) /\
  (_pp_wsize L * num_layers <= SIZE_MAX ->
   layer_byte_offset L k = k * _pp_wsize L /\
   k * _pp_wsize L + _pp_wsize L <= pinned_bytes L num_layers).
Proof.
  intros Hk L.
  pose proof (stride_in_bytes T n N_SLAB nnz) as Hstride. fold L in Hstride.
  split; [exact Hstride|].
  split; [apply layer_offset_in_bytes; exact Hstride|].
  intros Hfits.
  assert (Hw : 0 <= _pp_wsize L <= SIZE_MAX).
  { subst L. simpl. unfold size_add at 1. apply size_wrap_range. }
  unfold SIZE_MAX in *.
  rewrite (layer_offset_in_bytes L k Hstride).
  unfold pinned_bytes, size_mul, size_wrap, SIZE_MOD.
  rewrite !Z.mod_small by nia. nia.
Qed.

Lemma pinned_layout_stride_witness :
  let L := make Float 1024 1 32768 in
  size_mul sizeof_int (_pp_wlen L) = _pp_wsize L /\
  layer_byte_offset L 5 = size_mul 5 (_pp_wsize L) /\
  layer_byte_offset L 5 = 5 * _pp_wsize L /\
  5 * _pp_wsize L + _pp_wsize L <= pinned_bytes L 120.
Proof.
  destruct (pinned_layout_stride Float 1024 1 32768 120 5) as (H1 & H2 & H3);
    [lia|].
  split; [exact H1|]. split; [exact H2|].
  apply H3. vm_compute. discriminate.
Defined.

(** C10, counterexample.  [float], one neuron, one slab, [2^60] nonzeros in
    the fullest layer, two layers.  The layout constants agree,
    [sizeof(int) * _pp_wlen = _pp_wsize = 2^63 + 12], but the allocation
    size [_pp_wsize * 2] is reduced modulo 2^64 to 24 bytes: the stride of
    layer 1 points [2^63 + 12] bytes past the start of a region of 24
    bytes, not at a block that was allocated and cleared. *)
Lemma pinned_layout_block_outside_allocation :
  0 <= 1 < 2
  /\ size_mul sizeof_int (_pp_wlen (make Float 1 1 (2 ^ 60)))
     = _pp_wsize (make Float 1 1 (2 ^ 60))
  /\ _pp_wsize (make Float 1 1 (2 ^ 60)) = 2 ^ 63 + 12
  /\ pinned_bytes (make Float 1 1 (2 ^ 60)) 2 = 24
  /\ layer_byte_offset (make Float 1 1 (2 ^ 60)) 1 = 2 ^ 63 + 12
  /\ ~ (layer_byte_offset (make Float 1 1 (2 ^ 60)) 1
        + _pp_wsize (make Float 1 1 (2 ^ 60))
        <= pinned_bytes (make Float 1 1 (2 ^ 60)) 2).
Proof. vm_compute. repeat split; congruence. Qed.

End LayoutClaims.

(** ** Row compaction *)

Section CompactionFacts.

Import BFOneGpu.

Lemma non_empty_rows_S (n : nat) (rlenY rowsY : list Z) :
  _non_empty_rows (S n) rlenY rowsY
  = scan_step rlenY (_non_empty_rows n rlenY rowsY) n.
Proof. unfold _non_empty_rows. rewrite seq_S, fold_left_app. reflexivity. Qed.

Lemma positive_rows_S (n : nat) (rlenY : list Z) :
  positive_rows (S n) rlenY
  = positive_rows n rlenY
    ++ (if decide (0 < default 0 (rlenY !! n))%Z then [n] else []).
Proof.
  unfold positive_rows. rewrite seq_S, filter_app. reflexivity.
Qed.

Lemma positive_rows_lt (n : nat) (rlenY : list Z) (i : nat) :
  i ∈ positive_rows n rlenY -> i < n /\ (0 < default 0 (rlenY !! i))%Z.
Proof.
  unfold positive_rows. rewrite list_elem_of_filter, elem_of_seq. lia.
Qed.

Lemma positive_rows_length (n : nat) (rlenY : list Z) :
  length (positive_rows n rlenY) <= n.
Proof.
  unfold positive_rows. etransitivity; [apply length_filter|].
  rewrite length_seq. reflexivity.
Qed.

(** What the scan leaves behind: the count, the size of the row buffer,
    and, when the row buffer has room for [n] entries, its front. *)
Lemma non_empty_rows_spec (n : nat) (rlenY rowsY : list Z) :
  (_non_empty_rows n rlenY rowsY).2 = length (positive_rows n rlenY) /\
  length (_non_empty_rows n rlenY rowsY).1 = length rowsY /\
  (n <= length rowsY ->
   take (_non_empty_rows n rlenY rowsY).2 (_non_empty_rows n rlenY rowsY).1
   = (fun i => int_of_size (Z.of_nat i)) <$> positive_rows n rlenY).
Proof.
  induction n as [|n (IHcnt & IHlen & IHrows)].
  - split; [reflexivity|]. split; [reflexivity|]. intros _. reflexivity.
  - rewrite non_empty_rows_S, positive_rows_S. unfold scan_step.
    pose proof (positive_rows_length n rlenY) as Hle.
    destruct (_non_empty_rows n rlenY rowsY) as [rows nnz]. simpl in *.
    destruct (Z.ltb_spec 0 (default 0%Z (rlenY !! n))) as [Hpos|Hneg].
    + rewrite decide_True by exact Hpos. simpl.
      rewrite length_app, length_insert. simpl.
      split; [lia|]. split; [exact IHlen|].
      intros Hroom. rewrite fmap_app. simpl.
      rewrite <- IHrows by lia.
      rewrite (take_S_r _ _ (int_of_size (Z.of_nat n))).
      * rewrite take_insert_ge by lia. reflexivity.
      * apply list_lookup_insert_eq. lia.
    + rewrite decide_False by lia. simpl. rewrite app_nil_r.
      split; [exact IHcnt|]. split; [exact IHlen|].
      intros Hroom. apply IHrows. lia.
Qed.

Lemma int_of_size_small (z : Z) :
  (0 <= z <= INT_MAX)%Z -> int_of_size z = z.
Proof.
  intros Hz. unfold int_of_size, INT_MOD, INT_MAX in *.
  rewrite Z.mod_small by lia.
  destruct (Z.leb_spec z (2 ^ 31 - 1)); [reflexivity|lia].
Qed.

Lemma positive_rows_sorted (n : nat) (rlenY : list Z) :
  StronglySorted Z.lt (Z.of_nat <$> positive_rows n rlenY).
Proof.
  induction n as [|n IH]; [constructor|].
  rewrite positive_rows_S, fmap_app. apply StronglySorted_app_2.
  - intros x1 x2 Hx1 Hx2.
    apply list_elem_of_fmap in Hx1 as (i & -> & Hi).
    apply positive_rows_lt in Hi as [Hi _].
    destruct (decide _); simpl in Hx2.
    + apply list_elem_of_singleton in Hx2 as ->. lia.
    + apply elem_of_nil in Hx2. contradiction.
  - exact IH.
  - destruct (decide _); simpl; repeat constructor.
Qed.

End CompactionFacts.

Section CompactionClaims.

Import BFOneGpu.

(** C5 (amended).  For every row-length array [rlenY] of [num_inputs]
    cells with [num_inputs <= 2^31] (every row index fits an [int]) and
    every row buffer with room for [num_inputs] cells, after
    [_non_empty_rows(num_inputs, rlenY, rowsY, nnz)] the count [nnz] is the
    number of indices [i] in [[0, num_inputs)] with [rlenY[i] > 0], and
    [rowsY[0..nnz)] is exactly the strictly increasing sequence of those
    indices. *)
Theorem non_empty_rows_compacts (rlenY rowsY : list Z) :
  length rlenY <= length rowsY ->
  (Z.of_nat (length rlenY) <= INT_MAX + 1)%Z ->
  (_non_empty_rows (length rlenY) rlenY rowsY).2
  = length (positive_rows (length rlenY) rlenY) /\
  take (_non_empty_rows (length rlenY) rlenY rowsY).2
       (_non_empty_rows (length rlenY) rlenY rowsY).1
  = Z.of_nat <$> positive_rows (length rlenY) rlenY /\
  StronglySorted Z.lt
    (take (_non_empty_rows (length rlenY) rlenY rowsY).2
          (_non_empty_rows (length rlenY) rlenY rowsY).1).
Proof.
  intros Hroom Hint.
  destruct (non_empty_rows_spec (length rlenY) rlenY rowsY) as (Hcnt & _ & Hrows).
  specialize (Hrows Hroom).
  assert (Hsame : (fun i => int_of_size (Z.of_nat i)) <$> positive_rows (length rlenY) rlenY
                  = Z.of_nat <$> positive_rows (length rlenY) rlenY).
  { apply list_fmap_ext. intros k i Hi.
    apply list_elem_of_lookup_2, positive_rows_lt in Hi as [Hi _].
    apply int_of_size_small. lia. }
  rewrite Hrows, Hsame. split; [exact Hcnt|]. split; [reflexivity|].
  apply positive_rows_sorted.
Qed.

Lemma non_empty_rows_compacts_witness :
  (_non_empty_rows 4 [0; 3; 0; 1] [7; 7; 7; 7])%Z.2 = 2
  /\ take 2 (_non_empty_rows 4 [0; 3; 0; 1] [7; 7; 7; 7])%Z.1 = [1; 3]%Z.
Proof.
  destruct (non_empty_rows_compacts [0; 3; 0; 1]%Z [7; 7; 7; 7]%Z) as (H1 & H2 & _).
  - simpl. lia.
  - simpl. unfold INT_MAX. lia.
  - split; [exact H1|]. exact H2.
Defined.

Lemma positive_rows_all (n : nat) (rlenY : list Z) :
  (forall i, i < n -> (0 < default 0 (rlenY !! i))%Z) ->
  positive_rows n rlenY = seq 0 n.
Proof.
  induction n as [|n IH]; intros Hall; [reflexivity|].
  rewrite positive_rows_S, seq_S, IH by (intros i Hi; apply Hall; lia).
  rewrite decide_True by (apply Hall; lia). reflexivity.
Qed.

Lemma non_empty_rows_all_positive (n i : nat) :
  i < n ->
  (_non_empty_rows n (replicate n 1%Z) (replicate n 0%Z)).2 = n /\
  (_non_empty_rows n (replicate n 1%Z) (replicate n 0%Z)).1 !! i
  = Some (int_of_size (Z.of_nat i)).
Proof.
  intros Hi.
  destruct (non_empty_rows_spec n (replicate n 1%Z) (replicate n 0%Z))
    as (Hcnt & Hlen & Hrows).
  rewrite length_replicate in Hlen, Hrows. specialize (Hrows (le_n n)).
  assert (Hall : positive_rows n (replicate n 1%Z) = seq 0 n).
  { apply positive_rows_all. intros j Hj.
    rewrite lookup_replicate_2 by exact Hj. simpl. lia. }
  rewrite Hall in Hcnt, Hrows.
  rewrite length_seq in Hcnt. rewrite Hcnt in Hrows.
  rewrite take_ge in Hrows by lia.
  split; [exact Hcnt|].
  rewrite Hrows, list_lookup_fmap, lookup_seq_lt by exact Hi.
  reflexivity.
Qed.

(** C5, as stated, fails: with 2^31 + 1 rows, all of positive length, the
    row of index 2^31 is recorded as -2^31. *)
Lemma non_empty_rows_index_wraps :
  (_non_empty_rows oversized_batch (replicate oversized_batch 1%Z)
                   (replicate oversized_batch 0%Z)).2 = oversized_batch /\
  (_non_empty_rows oversized_batch (replicate oversized_batch 1%Z)
                   (replicate oversized_batch 0%Z)).1 !! Z.to_nat 2147483648
  = Some (-2147483648)%Z.
Proof.
  destruct (non_empty_rows_all_positive oversized_batch (Z.to_nat 2147483648))
    as (Hcnt & Hrow); [unfold oversized_batch; lia|].
  split; [exact Hcnt|]. rewrite Hrow, Z2Nat.id by lia. reflexivity.
Qed.

End CompactionClaims.

(** ** The pipeline: issue order and hazards *)

Section ScheduleFacts.

Import Streams BFOneGpu.

Context {T : Type}.
Variable zeroT : T.
Variable bf_inference : @launch T -> @kernel_view T -> @kernel_view T.
Variable identify : nat -> nat -> list T -> list Z -> list T * list Z.

(** The hazard check has teeth: scanning the row lengths while the kernel
    that writes them is in flight is reported, and so is a copy into the
    weight buffer of a kernel in flight. *)
Example scan_during_kernel_is_a_hazard :
  hazards (immediate (NonEmptyRows 1 1)
             (enqueue Stream1 (LaunchInference 0 0 0 0 0 1 1) fresh))
  = [(NonEmptyRows 1 1, LaunchInference 0 0 0 0 0 1 1)].
Proof. vm_compute. reflexivity. Qed.

Example copy_during_kernel_is_a_hazard :
  hazards (enqueue Stream0 (MemcpyAsync 0 2)
             (enqueue Stream1 (LaunchInference 0 0 0 0 0 1 1) fresh))
  = [(MemcpyAsync 0 2, LaunchInference 0 0 0 0 0 1 1)].
Proof. vm_compute. reflexivity. Qed.

Lemma mod2_cases (k : nat) :
  (k mod 2 = 0 /\ (k + 1) mod 2 = 1) \/ (k mod 2 = 1 /\ (k + 1) mod 2 = 0).
Proof.
  pose proof (Nat.div_mod_eq k 2). pose proof (Nat.mod_upper_bound k 2).
  pose proof (Nat.div_mod_eq (k + 1) 2). pose proof (Nat.mod_upper_bound (k + 1) 2).
  lia.
Qed.

(** What each operation of the loop body does to the schedule. *)
Lemma gpu_synchronize (k : stream) (s : @state T) :
  gpu (synchronize k s) = stream_synchronize k (gpu s).
Proof. reflexivity. Qed.

Lemma gpu_reset_consumed (o : object) (num_inputs cur_layer : nat) (s : state) :
  gpu (reset_consumed zeroT o num_inputs cur_layer s)
  = immediate (MemsetY (cur_layer mod 2)) (gpu s).
Proof. reflexivity. Qed.

Lemma gpu_compact_rows (num_inputs cur_layer : nat) (s : @state T) :
  gpu (compact_rows num_inputs cur_layer s)
  = immediate (NonEmptyRows ((cur_layer + 1) mod 2) ((cur_layer + 1) mod 2)) (gpu s).
Proof. reflexivity. Qed.

Lemma gpu_launch_bf_inference (o : object) (cur_layer : nat) (s : state) :
  gpu (launch_bf_inference bf_inference o cur_layer s)
  = enqueue Stream1
      (LaunchInference cur_layer (cur_layer mod 2) (cur_layer mod 2)
         (cur_layer mod 2) (cur_layer mod 2)
         ((cur_layer + 1) mod 2) ((cur_layer + 1) mod 2)) (gpu s).
Proof. reflexivity. Qed.

Lemma gpu_before_launch (o : @object T) (cur_layer : nat) (s : state) :
  gpu (before_launch o cur_layer s)
  = if negb (cur_layer =? _num_layers o - 1)
    then enqueue Stream0 (MemcpyAsync ((cur_layer + 1) mod 2) (cur_layer + 1)) (gpu s)
    else gpu s.
Proof. unfold before_launch. destruct (negb _); reflexivity. Qed.

(** One pass through the loop body, entered with nothing in flight, ends
    with nothing in flight, adds no hazard and issues [layer_events]. *)
Lemma layer_gpu (o : object) (num_inputs : nat) (s : state) (cur_layer : nat) :
  inflight (gpu s) = [] ->
  gpu (layer zeroT bf_inference o num_inputs s cur_layer)
  = {| inflight := [];
       hazards := hazards (gpu s);
       trace := trace (gpu s) ++ layer_events (_num_layers o) cur_layer |}.
Proof.
  intros Hidle. unfold layer. cbv zeta.
  rewrite gpu_synchronize, gpu_reset_consumed, gpu_compact_rows,
    gpu_synchronize, gpu_launch_bf_inference, gpu_before_launch.
  unfold layer_events.
  destruct (negb (cur_layer =? _num_layers o - 1));
    destruct (mod2_cases cur_layer) as [[-> ->]|[-> ->]];
    unfold enqueue, immediate, stream_synchronize; cbn;
    rewrite Hidle; cbn; rewrite ?app_nil_r, <- ?app_assoc; reflexivity.
Qed.

Lemma run_layers_S (o : object) (num_inputs k : nat) (s : state) :
  run_layers zeroT bf_inference o num_inputs (S k) s
  = layer zeroT bf_inference o num_inputs
          (run_layers zeroT bf_inference o num_inputs k s) k.
Proof. unfold run_layers. rewrite seq_S, fold_left_app. reflexivity. Qed.

Lemma run_layers_gpu (o : object) (num_inputs k : nat) (s : state) :
  inflight (gpu s) = [] ->
  gpu (run_layers zeroT bf_inference o num_inputs k s)
  = {| inflight := [];
       hazards := hazards (gpu s);
       trace := trace (gpu s)
                ++ flat_map (layer_events (_num_layers o)) (seq 0 k) |}.
Proof.
  intros Hidle. induction k as [|k IH].
  - unfold run_layers. simpl. rewrite app_nil_r, <- Hidle.
    destruct (gpu s). reflexivity.
  - rewrite run_layers_S, layer_gpu by (rewrite IH; reflexivity).
    rewrite IH. cbn [hazards trace].
    rewrite seq_S, flat_map_app. cbn [flat_map]. rewrite app_nil_r, app_assoc. reflexivity.
Qed.

(** The whole of [_infer_BF]: no hazard, nothing left in flight, and the
    operations of [pipeline_events] in that order. *)
Lemma infer_BF_gpu (o : object) (num_inputs : nat) (s : state) :
  gpu (_infer_BF zeroT bf_inference identify o num_inputs s)
  = {| inflight := []; hazards := [];
       trace := pipeline_events (_num_layers o) |}.
Proof.
  unfold _infer_BF, layers_done, launch_identify. simpl.
  rewrite run_layers_gpu by reflexivity.
  unfold device_synchronize, enqueue, pipeline_events. cbn.
  rewrite <- app_assoc. reflexivity.
Qed.

End ScheduleFacts.

Section PipelineEvents.

Import Streams BFOneGpu.

Lemma seq_split (n k : nat) :
  k < n -> seq 0 n = seq 0 k ++ k :: seq (S k) (n - S k).
Proof.
  intros Hk. replace n with (k + S (n - S k)) at 1 by lia.
  rewrite seq_app. reflexivity.
Qed.

Lemma pipeline_events_at (num_layers L : nat) :
  L < num_layers ->
  pipeline_events num_layers
  = flat_map (layer_events num_layers) (seq 0 L)
    ++ layer_events num_layers L
    ++ (flat_map (layer_events num_layers) (seq (S L) (num_layers - S L))
        ++ [LaunchIdentify 0; DeviceSynchronize]).
Proof.
  intros HL. unfold pipeline_events.
  rewrite (seq_split num_layers L HL), flat_map_app. cbn [flat_map].
  rewrite <- !app_assoc. reflexivity.
Qed.

Lemma pipeline_events_at_two (num_layers L : nat) :
  L + 1 < num_layers ->
  pipeline_events num_layers
  = flat_map (layer_events num_layers) (seq 0 L)
    ++ layer_events num_layers L
    ++ layer_events num_layers (L + 1)
    ++ (flat_map (layer_events num_layers) (seq (S (S L)) (num_layers - S (S L)))
        ++ [LaunchIdentify 0; DeviceSynchronize]).
Proof.
  intros HL. rewrite (pipeline_events_at num_layers L) by lia.
  replace (num_layers - S L) with (S (num_layers - S (S L))) by lia.
  cbn [seq flat_map]. replace (L + 1) with (S L) by lia.
  rewrite <- !app_assoc. reflexivity.
Qed.

Lemma memcpy_in_layer_events (num_layers cur dst layer : nat) :
  MemcpyAsync dst layer ∈ layer_events num_layers cur
  <-> cur <> num_layers - 1 /\ dst = (cur + 1) mod 2 /\ layer = cur + 1.
Proof.
  unfold layer_events.
  destruct (Nat.eqb_spec cur (num_layers - 1)) as [Heq|Hne]; simpl;
    rewrite ?elem_of_cons, elem_of_nil; split.
  - intros [H|[H|[H|[H|[H|[]]]]]]; discriminate H.
  - intros (H & _). contradiction.
  - intros [H|[H|[H|[H|[H|[H|[]]]]]]]; try discriminate H.
    injection H as -> ->. auto.
  - intros (_ & -> & ->). left. reflexivity.
Qed.

Lemma memcpy_in_pipeline_events (num_layers dst layer : nat) :
  MemcpyAsync dst layer ∈ pipeline_events num_layers
  <-> exists cur, cur + 1 < num_layers /\ dst = (cur + 1) mod 2 /\ layer = cur + 1.
Proof.
  unfold pipeline_events.
  rewrite elem_of_app, (list_elem_of_In (flat_map _ _)), in_flat_map. split.
  - intros [(cur & Hcur & Hin)|Hin].
    + apply in_seq in Hcur. apply list_elem_of_In, memcpy_in_layer_events in Hin.
      exists cur. split; [lia|tauto].
    + rewrite !elem_of_cons, elem_of_nil in Hin.
      destruct Hin as [H|[H|[]]]; discriminate H.
  - intros (cur & Hcur & Hdst & Hlayer). left. exists cur. split.
    + apply in_seq. lia.
    + apply list_elem_of_In, memcpy_in_layer_events. split; [lia|tauto].
Qed.

End PipelineEvents.

Section PipelineClaims.

Import Streams BFOneGpu.

Context {T : Type}.
Variable zeroT : T.
Variable bf_inference : @launch T -> @kernel_view T -> @kernel_view T.
Variable identify : nat -> nat -> list T -> list Z -> list T * list Z.

Local Abbreviation run := (_infer_BF zeroT bf_inference identify).

(** C7.  During [_infer_BF] over [num_layers] layers, a host-to-device
    weight copy for layer [L + 1] is issued if and only if
    [L < num_layers - 1]; with [num_layers = 1] no copy is issued at all. *)
Theorem prefetch_issued_iff (o : object) (num_inputs : nat) (s : state) (L : nat) :
  ((exists dst, MemcpyAsync dst (L + 1) ∈ trace (gpu (run o num_inputs s)))
   <-> L < _num_layers o - 1)
  /\ (_num_layers o = 1 ->
      forall dst layer, MemcpyAsync dst layer ∉ trace (gpu (run o num_inputs s))).
Proof.
  rewrite infer_BF_gpu. cbn [trace]. split; [split|].
  - intros (dst & Hin). apply memcpy_in_pipeline_events in Hin as (cur & Hcur & _ & Heq).
    lia.
  - intros HL. exists ((L + 1) mod 2). apply memcpy_in_pipeline_events.
    exists L. split; [lia|]. split; reflexivity.
  - intros Hone dst layer Hin.
    apply memcpy_in_pipeline_events in Hin as (cur & Hcur & _). lia.
Qed.

(** C9.  In every pass [L] through the loop the launch of the kernel is
    followed at once by the synchronisation of the compute stream, and
    that by the scan of the row lengths the kernel writes; and in the whole
    run no operation, the scan included, is issued while work that
    conflicts with it is in flight. *)
Theorem scan_follows_compute_sync (o : object) (num_inputs : nat) (s : state) (L : nat) :
  L < _num_layers o ->
  hazards (gpu (run o num_inputs s)) = [] /\
  exists before after,
    trace (gpu (run o num_inputs s))
    = before
      ++ [LaunchInference L (L mod 2) (L mod 2) (L mod 2) (L mod 2)
                          ((L + 1) mod 2) ((L + 1) mod 2);
          StreamSynchronize Stream1;
          NonEmptyRows ((L + 1) mod 2) ((L + 1) mod 2)]
      ++ after.
Proof.
  intros HL. rewrite infer_BF_gpu. cbn [hazards trace]. split; [reflexivity|].
  rewrite (pipeline_events_at _ L HL). unfold layer_events at 2.
  exists (flat_map (layer_events (_num_layers o)) (seq 0 L)
          ++ (if negb (L =? _num_layers o - 1)
              then [MemcpyAsync ((L + 1) mod 2) (L + 1)] else [])).
  exists ([MemsetY (L mod 2); StreamSynchronize Stream0]
          ++ (flat_map (layer_events (_num_layers o))
                       (seq (S L) (_num_layers o - S L))
              ++ [LaunchIdentify 0; DeviceSynchronize])).
  rewrite <- !app_assoc. reflexivity.
Qed.

(** C6.  For every layer [L] that has a successor, the copy of layer
    [L + 1] is issued just before the kernel of layer [L] is launched and
    writes [d_W[(L + 1) mod 2]], not the buffer [d_W[L mod 2]] that kernel
    reads; the transfer stream is synchronised before the kernel of layer
    [L + 1], which reads the copied buffer, is launched, and nothing else
    is copied into that buffer in between; and in the whole run no copy is
    issued into a buffer a kernel in flight may read, and no kernel is
    launched on a buffer a copy in flight writes. *)
Theorem prefetch_double_buffered (o : object) (num_inputs : nat) (s : state) (L : nat) :
  L + 1 < _num_layers o ->
  hazards (gpu (run o num_inputs s)) = [] /\
  (L + 1) mod 2 <> L mod 2 /\
  exists before between after,
    trace (gpu (run o num_inputs s))
    = before
      ++ [MemcpyAsync ((L + 1) mod 2) (L + 1);
          LaunchInference L (L mod 2) (L mod 2) (L mod 2) (L mod 2)
                          ((L + 1) mod 2) ((L + 1) mod 2)]
      ++ between
      ++ [LaunchInference (L + 1) ((L + 1) mod 2) ((L + 1) mod 2)
                          ((L + 1) mod 2) ((L + 1) mod 2)
                          ((L + 1 + 1) mod 2) ((L + 1 + 1) mod 2)]
      ++ after
    /\ StreamSynchronize Stream0 ∈ between
    /\ forall dst layer, MemcpyAsync dst layer ∈ between -> dst <> (L + 1) mod 2.
Proof.
  intros HL. rewrite infer_BF_gpu. cbn [hazards trace]. split; [reflexivity|].
  split; [destruct (mod2_cases L) as [[-> ->]|[-> ->]]; discriminate|].
  rewrite (pipeline_events_at_two _ L HL). unfold layer_events at 2 3.
  replace (negb (L =? _num_layers o - 1)) with true
    by (symmetry; apply negb_true_iff, Nat.eqb_neq; lia).
  exists (flat_map (layer_events (_num_layers o)) (seq 0 L)).
  exists ([StreamSynchronize Stream1;
           NonEmptyRows ((L + 1) mod 2) ((L + 1) mod 2);
           MemsetY (L mod 2);
           StreamSynchronize Stream0]
          ++ (if negb (L + 1 =? _num_layers o - 1)
              then [MemcpyAsync ((L + 1 + 1) mod 2) (L + 1 + 1)] else [])).
  exists ([StreamSynchronize Stream1;
           NonEmptyRows ((L + 1 + 1) mod 2) ((L + 1 + 1) mod 2);
           MemsetY ((L + 1) mod 2);
           StreamSynchronize Stream0]
          ++ (flat_map (layer_events (_num_layers o))
                       (seq (S (S L)) (_num_layers o - S (S L)))
              ++ [LaunchIdentify 0; DeviceSynchronize])).
  split; [|split].
  - rewrite <- !app_assoc. reflexivity.
  - rewrite elem_of_app, !elem_of_cons. left. right. right. right. left. reflexivity.
  - intros dst layer Hin. rewrite elem_of_app, !elem_of_cons, elem_of_nil in Hin.
    destruct Hin as [[H|[H|[H|[H|[]]]]]|Hin]; try discriminate H.
    destruct (negb (L + 1 =? _num_layers o - 1)).
    + apply list_elem_of_singleton in Hin.
      assert (Hdst : dst = (L + 1 + 1) mod 2) by congruence. rewrite Hdst.
      destruct (mod2_cases (L + 1)) as [[-> ->]|[-> ->]]; discriminate.
    + apply elem_of_nil in Hin. contradiction.
Qed.

End PipelineClaims.

(** ** The pipeline: buffer contents *)

Section BufferFacts.

Import Streams BFOneGpu.

Lemma length_store {A} (old new : list A) : length (store old new) = length old.
Proof. unfold store. rewrite length_app, length_take, length_drop. lia. Qed.

Lemma store_same_length {A} (old new : list A) :
  length new = length old -> store old new = new.
Proof.
  intros Hlen. unfold store.
  rewrite take_ge, drop_ge, app_nil_r by lia. reflexivity.
Qed.

Lemma slot_set_slot {A} (v : A * A) (i : nat) (x : A) :
  slot (set_slot v i x) i = x.
Proof. destruct i; reflexivity. Qed.

Lemma slot_set_slot_other {A} (v : A * A) (k : nat) (x : A) :
  slot (set_slot v (k mod 2) x) ((k + 1) mod 2) = slot v ((k + 1) mod 2)
  /\ slot (set_slot v ((k + 1) mod 2) x) (k mod 2) = slot v (k mod 2).
Proof. destruct (mod2_cases k) as [[-> ->]|[-> ->]]; split; reflexivity. Qed.

Lemma length_slot_set_slot {A} (v : list A * list A) (i j : nat) (x : list A) :
  length x = length (slot v i) ->
  length (slot (set_slot v i x) j) = length (slot v j).
Proof. destruct i, j; simpl; congruence. Qed.

Context {T : Type}.
Variable zeroT : T.
Variable bf_inference : @launch T -> @kernel_view T -> @kernel_view T.
Variable identify : nat -> nat -> list T -> list Z -> list T * list Z.
Variable read_input_binary :
  list T -> list Z -> list Z -> list T * list Z * list Z * nat.

(** No operation of the loop body changes the size of an activation
    buffer, and none touches [results]. *)
Lemma launch_Y_length (o : object) (cur_layer : nat) (s : state) (j : nat) :
  length (slot (Y (launch_bf_inference bf_inference o cur_layer s)) j)
  = length (slot (Y s) j).
Proof.
  unfold launch_bf_inference. cbv zeta. cbn [Y kv_Y0 kv_Y1].
  rewrite length_slot_set_slot.
  - apply length_slot_set_slot. apply length_store.
  - rewrite length_store. symmetry. apply length_slot_set_slot. apply length_store.
Qed.

Lemma Y_before_launch (o : @object T) (cur_layer : nat) (s : state) :
  Y (before_launch o cur_layer s) = Y s.
Proof. unfold before_launch. destruct (negb _); reflexivity. Qed.

Lemma layer_Y_length (o : object) (num_inputs : nat) (s : state) (cur_layer j : nat) :
  length (slot (Y (layer zeroT bf_inference o num_inputs s cur_layer)) j)
  = length (slot (Y s) j).
Proof.
  unfold layer. cbv zeta.
  change (Y (synchronize Stream0 ?x)) with (Y x).
  unfold reset_consumed at 1. cbn [Y].
  rewrite length_slot_set_slot by apply length_store.
  change (Y (compact_rows ?a ?b ?x)) with (Y x).
  change (Y (synchronize Stream1 ?x)) with (Y x).
  rewrite launch_Y_length, Y_before_launch. reflexivity.
Qed.

Lemma run_layers_Y_length (o : object) (num_inputs k : nat) (s : state) (j : nat) :
  length (slot (Y (run_layers zeroT bf_inference o num_inputs k s)) j)
  = length (slot (Y s) j).
Proof.
  induction k as [|k IH]; [reflexivity|].
  rewrite run_layers_S, layer_Y_length. exact IH.
Qed.

Lemma layer_results (o : object) (num_inputs : nat) (s : state) (cur_layer : nat) :
  results (layer zeroT bf_inference o num_inputs s cur_layer) = results s.
Proof.
  unfold layer. cbv zeta.
  change (results (synchronize Stream0 ?x)) with (results x).
  change (results (reset_consumed ?z ?a ?b ?c ?x)) with (results x).
  change (results (compact_rows ?a ?b ?x)) with (results x).
  change (results (synchronize Stream1 ?x)) with (results x).
  change (results (launch_bf_inference ?z ?a ?b ?x)) with (results x).
  unfold before_launch. destruct (negb _); reflexivity.
Qed.

Lemma run_layers_results (o : object) (num_inputs k : nat) (s : state) :
  results (run_layers zeroT bf_inference o num_inputs k s) = results s.
Proof.
  induction k as [|k IH]; [reflexivity|].
  rewrite run_layers_S, layer_results. exact IH.
Qed.

(** The loop body ends by clearing the buffer it consumed. *)
Lemma layer_clears_consumed (o : object) (num_inputs : nat) (s : state) (cur_layer : nat) :
  length (slot (Y s) (cur_layer mod 2)) = num_inputs * _num_neurons_per_layer o ->
  slot (Y (layer zeroT bf_inference o num_inputs s cur_layer)) (cur_layer mod 2)
  = replicate (num_inputs * _num_neurons_per_layer o) zeroT.
Proof.
  intros Hlen. unfold layer. cbv zeta.
  change (Y (synchronize Stream0 ?x)) with (Y x).
  unfold reset_consumed at 1. cbn [Y].
  rewrite slot_set_slot.
  apply store_same_length. rewrite length_replicate.
  change (Y (compact_rows ?a ?b ?x)) with (Y x).
  change (Y (synchronize Stream1 ?x)) with (Y x).
  rewrite launch_Y_length, Y_before_launch. symmetry. exact Hlen.
Qed.

Lemma cudaMalloc_length {A} (contents : nat -> A) (cells : nat) :
  length (cudaMalloc contents cells) = cells.
Proof. unfold cudaMalloc. rewrite length_map, length_seq. reflexivity. Qed.

Lemma preprocess_Y_length (o : object) (u : uninitialised) (num_inputs j : nat) :
  length (slot (Y (preprocess read_input_binary o u num_inputs)) j)
  = num_inputs * _num_neurons_per_layer o.
Proof.
  unfold preprocess. cbv zeta. cbn [Y].
  destruct j; cbn [slot fst snd]; rewrite ?length_store; apply cudaMalloc_length.
Qed.

End BufferFacts.

Section BufferClaims.

Import Streams BFOneGpu.

Context {T : Type}.
Variable zeroT : T.
Variable bf_inference : @launch T -> @kernel_view T -> @kernel_view T.
Variable identify : nat -> nat -> list T -> list Z -> list T * list Z.
Variable read_input_binary :
  list T -> list Z -> list Z -> list T * list Z * list Z * nat.

(** C3, on the code: whenever [num_layers] is odd, the last kernel writes
    [Y[1]] and [Y[0]] is cleared after it, yet [identify] is handed
    [Y[0]].  The buffer [identify] reads holds nothing but zeros, and the
    reported classes are those of an all-zero activation matrix, whatever
    the weights and the input. *)
Theorem identify_reads_cleared_buffer
    (o : object) (u : uninitialised) (num_inputs : nat) :
  Nat.Odd (_num_layers o) ->
  (exists before,
     trace (gpu (infer zeroT bf_inference identify read_input_binary o u num_inputs))
     = before
       ++ [LaunchInference (_num_layers o - 1) 0 0 0 0 1 1;
           StreamSynchronize Stream1; NonEmptyRows 1 1; MemsetY 0;
           StreamSynchronize Stream0;
           LaunchIdentify 0; DeviceSynchronize])
  /\ slot (Y (layers_done zeroT bf_inference o num_inputs
                (preprocess read_input_binary o u num_inputs))) 0
     = replicate (num_inputs * _num_neurons_per_layer o) zeroT
  /\ results (infer zeroT bf_inference identify read_input_binary o u num_inputs)
     = store (replicate num_inputs 0%Z)
             (identify num_inputs (_num_neurons_per_layer o)
                       (replicate (num_inputs * _num_neurons_per_layer o) zeroT)
                       (replicate num_inputs 0%Z)).2.
Proof.
  intros [k Hk].
  assert (Hlast : _num_layers o = S (2 * k)) by lia.
  assert (Hmod : (2 * k) mod 2 = 0 /\ (2 * k + 1) mod 2 = 1).
  { destruct (mod2_cases (2 * k)) as [?|[? ?]]; [assumption|].
    pose proof (Nat.div_mod_eq (2 * k) 2). lia. }
  destruct Hmod as [Hm0 Hm1].
  assert (Hbuf : slot (Y (layers_done zeroT bf_inference o num_inputs
                            (preprocess read_input_binary o u num_inputs))) 0
                 = replicate (num_inputs * _num_neurons_per_layer o) zeroT).
  { unfold layers_done. rewrite Hlast, run_layers_S.
    pose proof (layer_clears_consumed zeroT bf_inference o num_inputs
                  (run_layers zeroT bf_inference o num_inputs (2 * k)
                     (create_streams (preprocess read_input_binary o u num_inputs)))
                  (2 * k)) as Hclear.
    rewrite Hm0 in Hclear. apply Hclear.
    rewrite run_layers_Y_length.
    change (Y (create_streams ?x)) with (Y x).
    apply preprocess_Y_length. }
  split; [|split].
  - unfold infer. rewrite infer_BF_gpu. cbn [trace].
    rewrite (pipeline_events_at (_num_layers o) (2 * k)) by lia.
    replace (_num_layers o - S (2 * k)) with 0 by lia. cbn [seq flat_map app].
    exists (flat_map (layer_events (_num_layers o)) (seq 0 (2 * k))).
    f_equal. unfold layer_events.
    replace (negb (2 * k =? _num_layers o - 1)) with false
      by (symmetry; apply negb_false_iff, Nat.eqb_eq; lia).
    replace (_num_layers o - 1) with (2 * k) by lia.
    rewrite Hm0, Hm1. reflexivity.
  - exact Hbuf.
  - unfold infer, _infer_BF, launch_identify. cbn [results].
    rewrite Hbuf. unfold layers_done. rewrite run_layers_results.
    reflexivity.
Qed.

(** C8 (amended).  For every layer [L] with [1 <= L < num_layers], when
    the kernel of layer [L] is launched its output buffer
    [Y[(L + 1) mod 2]] holds only zeros: it is the buffer the previous pass
    cleared after consuming it. *)
Theorem output_buffer_cleared_at_launch
    (o : object) (u : uninitialised) (num_inputs L : nat) :
  1 <= L < _num_layers o ->
  all_zero zeroT
    (slot (Y (at_launch zeroT bf_inference o num_inputs L
                (preprocess read_input_binary o u num_inputs)))
          ((L + 1) mod 2)).
Proof.
  intros [HL _]. destruct L as [|k]; [lia|].
  unfold at_launch. rewrite Y_before_launch, run_layers_S.
  assert (Hpar : (S k + 1) mod 2 = k mod 2).
  { destruct (mod2_cases k) as [[Ha Hb]|[Ha Hb]];
      destruct (mod2_cases (k + 1)) as [[Hc Hd]|[Hc Hd]];
      replace (S k + 1) with (k + 1 + 1) by lia; lia. }
  rewrite Hpar, layer_clears_consumed.
  - unfold all_zero. apply Forall_replicate. reflexivity.
  - rewrite run_layers_Y_length.
    change (Y (create_streams ?x)) with (Y x).
    apply preprocess_Y_length.
Qed.

End BufferClaims.

Section SampleRuns.

Import Streams BFOneGpu.

(** Two layers: the class of row 0 is read from the output of the last
    layer. *)
Example two_layers_classes :
  results (infer 0%Z Sample.kernel Sample.identify Sample.read_input
                 (Sample.engine 2) Sample.garbage 2)
  = [1; 0]%Z.
Proof. vm_compute. reflexivity. Qed.

(** One layer: the output of the layer sits in [Y[1]], the classes are
    read from the cleared [Y[0]]. *)
Example one_layer_classes :
  results (infer 0%Z Sample.kernel Sample.identify Sample.read_input
                 (Sample.engine 1) Sample.garbage 2)
  = [0; 0]%Z
  /\ Y (infer 0%Z Sample.kernel Sample.identify Sample.read_input
              (Sample.engine 1) Sample.garbage 2)
     = ([0; 0; 0; 0]%Z, [0; 1; 7; 7]%Z).
Proof. vm_compute. split; reflexivity. Qed.

Lemma identify_reads_cleared_buffer_witness :
  slot (Y (layers_done 0%Z Sample.kernel (Sample.engine 1) 2
             (preprocess Sample.read_input (Sample.engine 1) Sample.garbage 2))) 0
  = replicate (2 * 2) 0%Z.
Proof.
  destruct (identify_reads_cleared_buffer 0%Z Sample.kernel Sample.identify
              Sample.read_input (Sample.engine 1) Sample.garbage 2) as (_ & H & _).
  - exists 0. reflexivity.
  - exact H.
Defined.

Lemma output_buffer_cleared_at_launch_witness :
  all_zero 0%Z
    (slot (Y (at_launch 0%Z Sample.kernel (Sample.engine 3) 2 1
                (preprocess Sample.read_input (Sample.engine 3) Sample.garbage 2)))
          ((1 + 1) mod 2)).
Proof.
  apply (output_buffer_cleared_at_launch 0%Z Sample.kernel Sample.read_input
           (Sample.engine 3) Sample.garbage 2 1).
  simpl. lia.
Defined.

(** C8, as stated, fails at [L = 0]: [Y[1]] is handed to the first kernel
    as the allocator left it. *)
Lemma output_buffer_not_cleared_at_first_launch :
  0 < _num_layers (Sample.engine 1) /\
  ~ all_zero 0%Z
      (slot (Y (at_launch 0%Z Sample.kernel (Sample.engine 1) 2 0
                  (preprocess Sample.read_input (Sample.engine 1) Sample.garbage 2)))
            ((0 + 1) mod 2)).
Proof.
  split; [simpl; lia|].
  intros H. vm_compute in H. inversion H as [|? ? Hhd _]. discriminate Hhd.
Qed.

Lemma scan_follows_compute_sync_witness :
  hazards (gpu (_infer_BF 0%Z Sample.kernel Sample.identify (Sample.engine 2) 2
                  (preprocess Sample.read_input (Sample.engine 2) Sample.garbage 2)))
  = [] /\
  exists before after,
    trace (gpu (_infer_BF 0%Z Sample.kernel Sample.identify (Sample.engine 2) 2
                  (preprocess Sample.read_input (Sample.engine 2) Sample.garbage 2)))
    = before
      ++ [LaunchInference 1 (1 mod 2) (1 mod 2) (1 mod 2) (1 mod 2)
                          ((1 + 1) mod 2) ((1 + 1) mod 2);
          StreamSynchronize Stream1;
          NonEmptyRows ((1 + 1) mod 2) ((1 + 1) mod 2)]
      ++ after.
Proof.
  apply (scan_follows_compute_sync 0%Z Sample.kernel Sample.identify
           (Sample.engine 2) 2). simpl. lia.
Defined.

Lemma prefetch_double_buffered_witness :
  hazards (gpu (_infer_BF 0%Z Sample.kernel Sample.identify (Sample.engine 3) 2
                  (preprocess Sample.read_input (Sample.engine 3) Sample.garbage 2)))
  = [] /\ (1 + 1) mod 2 <> 1 mod 2.
Proof.
  destruct (prefetch_double_buffered 0%Z Sample.kernel Sample.identify
              (Sample.engine 3) 2
              (preprocess Sample.read_input (Sample.engine 3) Sample.garbage 2) 1)
    as (H1 & H2 & _).
  - simpl. lia.
  - split; [exact H1|exact H2].
Defined.

Example three_layers_trace :
  trace (gpu (_infer_BF 0%Z Sample.kernel Sample.identify (Sample.engine 3) 2
                (preprocess Sample.read_input (Sample.engine 3) Sample.garbage 2)))
  = [MemcpyAsync 1 1; LaunchInference 0 0 0 0 0 1 1; StreamSynchronize Stream1;
     NonEmptyRows 1 1; MemsetY 0; StreamSynchronize Stream0;
     MemcpyAsync 0 2; LaunchInference 1 1 1 1 1 0 0; StreamSynchronize Stream1;
     NonEmptyRows 0 0; MemsetY 1; StreamSynchronize Stream0;
     LaunchInference 2 0 0 0 0 1 1; StreamSynchronize Stream1;
     NonEmptyRows 1 1; MemsetY 0; StreamSynchronize Stream0;
     LaunchIdentify 0; DeviceSynchronize].
Proof. vm_compute. reflexivity. Qed.

End SampleRuns.

(** ** The active-row count across layers *)

(** What the host code contributes, whatever the kernel does: the count
    after a layer is the number of positive cells of the row-length array
    the kernel wrote to, and the host code clears [rlenY] when it
    allocates it and not again. *)

Section ActiveRowCount.

Import Streams BFOneGpu.

Context {T : Type}.
Variable zeroT : T.
Variable bf_inference : @launch T -> @kernel_view T -> @kernel_view T.

Lemma fields_before_launch (o : @object T) (cur_layer : nat) (s : state) :
  nerowsY (before_launch o cur_layer s) = nerowsY s
  /\ rowsY (before_launch o cur_layer s) = rowsY s
  /\ rlenY (before_launch o cur_layer s) = rlenY s.
Proof. unfold before_launch. destruct (negb _); repeat split; reflexivity. Qed.

Lemma positive_rows_NoDup (n : nat) (rlenY : list Z) :
  NoDup (Z.of_nat <$> positive_rows n rlenY).
Proof.
  apply NoDup_fmap_2; [apply Nat2Z.inj'|].
  unfold positive_rows. apply NoDup_filter, NoDup_seq.
Qed.

(** One pass through the loop body does not increase [nerowsY] if the
    kernel leaves a positive row length only at rows of the batch that are
    in the active list it was handed. *)
Lemma layer_count_within_active_rows
    (o : object) (num_inputs : nat) (s : state) (cur_layer : nat) :
  (forall r : nat,
     r < num_inputs ->
     (0 < default 0
            (slot (rlenY (launch_bf_inference bf_inference o cur_layer
                            (before_launch o cur_layer s)))
                  ((cur_layer + 1) mod 2) !! r))%Z ->
     Z.of_nat r ∈ take (nerowsY s) (slot (rowsY s) (cur_layer mod 2))) ->
  nerowsY (layer zeroT bf_inference o num_inputs s cur_layer) <= nerowsY s.
Proof.
  intros Hactive.
  unfold layer. cbv zeta.
  change (nerowsY (synchronize Stream0 ?x)) with (nerowsY x).
  change (nerowsY (reset_consumed ?z ?a ?b ?c ?x)) with (nerowsY x).
  unfold compact_rows at 1. cbn [nerowsY].
  change (rlenY (synchronize Stream1 ?x)) with (rlenY x).
  change (rowsY (synchronize Stream1 ?x)) with (rowsY x).
  destruct (non_empty_rows_spec num_inputs
              (slot (rlenY (launch_bf_inference bf_inference o cur_layer
                              (before_launch o cur_layer s))) ((cur_layer + 1) mod 2))
              (slot (rowsY (launch_bf_inference bf_inference o cur_layer
                              (before_launch o cur_layer s))) ((cur_layer + 1) mod 2)))
    as (-> & _ & _).
  rewrite <- (length_fmap Z.of_nat).
  etransitivity.
  - apply submseteq_length, NoDup_submseteq; [apply positive_rows_NoDup|].
    intros z Hz. apply list_elem_of_fmap in Hz as (i & -> & Hi).
    apply positive_rows_lt in Hi as [Hlt Hpos].
    exact (Hactive i Hlt Hpos).
  - rewrite length_take. lia.
Qed.

End ActiveRowCount.

(** With the kernel as the design document describes it, which writes the
    cells of active rows and no others. *)

Section ActiveRowCountOfKernelSpec.

Import Streams BFOneGpu.

Context {T : Type}.
Variable zeroT : T.
Variable neuron : list Z -> T -> list T -> nat -> T.
Variable nonzero : T -> bool.

Local Abbreviation kernel := (KernelSpec.bf_inference neuron nonzero).

(** A positive row length in the kernel's output array is at a row of
    its active list, or was in the array when the kernel was launched. *)
Lemma launch_row_lengths (o : object) (cur_layer : nat) (s : state) (i : nat) :
  (0 < default 0 (slot (rlenY (launch_bf_inference kernel o cur_layer s))
                       ((cur_layer + 1) mod 2) !! i))%Z ->
  Z.of_nat i ∈ take (nerowsY s) (slot (rowsY s) (cur_layer mod 2))
  \/ ((Z.of_nat i ∉ take (nerowsY s) (slot (rowsY s) (cur_layer mod 2)))
      /\ (0 < default 0 (slot (rlenY s) ((cur_layer + 1) mod 2) !! i))%Z).
Proof.
  unfold launch_bf_inference. cbv zeta. cbn [rlenY].
  rewrite slot_set_slot.
  unfold KernelSpec.bf_inference at 1. cbn [kv_rlenY1 kv_rowsY0 arg_nerowsY].
  rewrite store_same_length by apply length_imap.
  rewrite list_lookup_imap.
  destruct (slot (rlenY s) ((cur_layer + 1) mod 2) !! i) as [old|]; simpl; [|lia].
  case_bool_decide; [intros _; left; assumption|intros Hpos; right; split; assumption].
Qed.

(** One pass through the loop body does not increase [nerowsY] when the
    row-length array the kernel writes to holds, at the launch, no
    positive length at a row of the batch outside the active list. *)
Lemma layer_count_without_stale_lengths
    (o : object) (num_inputs : nat) (s : state) (cur_layer : nat) :
  (forall r : nat,
     r < num_inputs ->
     Z.of_nat r ∉ take (nerowsY s) (slot (rowsY s) (cur_layer mod 2)) ->
     (default 0 (slot (rlenY s) ((cur_layer + 1) mod 2) !! r) <= 0)%Z) ->
  nerowsY (layer zeroT kernel o num_inputs s cur_layer) <= nerowsY s.
Proof.
  intros Hclean. apply layer_count_within_active_rows.
  intros r Hlt Hpos. apply launch_row_lengths in Hpos.
  destruct (fields_before_launch o cur_layer s) as (Hn & Hrows & Hrlen).
  rewrite Hn, Hrows, Hrlen in Hpos.
  destruct Hpos as [Hin|[Hout Hold]]; [exact Hin|].
  specialize (Hclean r Hlt Hout). lia.
Qed.

End ActiveRowCountOfKernelSpec.

Section ActiveRowCountRuns.

Import Streams BFOneGpu.

(** A batch of two rows, bias [-1], three layers.  Both rows are active at
    layer 0; row 1 is cut to zero by layer 0, so one row is active after
    layer 0.  Layer 1 writes to [rlenY[0]], which still holds the length 1
    the input gave to row 1; a kernel that writes the cells of active rows
    only leaves it there, and the scan after layer 1 counts two rows. *)
Example stale_row_length_is_counted :
  nerowsY (create_streams (preprocess Sample.read_two_rows (Sample.fading_engine 3)
                             Sample.garbage 2)) = 2
  /\ nerowsY (run_layers 0%Z Sample.kernel (Sample.fading_engine 3) 2 1
                (create_streams (preprocess Sample.read_two_rows (Sample.fading_engine 3)
                                   Sample.garbage 2))) = 1
  /\ slot (rlenY (run_layers 0%Z Sample.kernel (Sample.fading_engine 3) 2 1
                    (create_streams (preprocess Sample.read_two_rows
                                       (Sample.fading_engine 3) Sample.garbage 2)))) 0
     = [1; 1]%Z
  /\ nerowsY (run_layers 0%Z Sample.kernel (Sample.fading_engine 3) 2 2
                (create_streams (preprocess Sample.read_two_rows (Sample.fading_engine 3)
                                   Sample.garbage 2))) = 2.
Proof. vm_compute. repeat split. Qed.

End ActiveRowCountRuns.

(** * Further properties of the code *)

(** ** Tiling: what a returned pair is, and how the search ends otherwise *)

Section TilingMore.

Import Tiling.
Local Open Scope Z_scope.

(** A run of the loop that returns a counter value has stopped at the first
    value at which the condition fails. *)
Lemma search_run_inv (n m : Z) (fuel : nat) (d0 d : Z) :
  d0 <= INT_MAX ->
  loop_nat (search_body n m) fuel d0 = inl (Returns d) ->
  d0 <= d <= INT_MAX /\ keep_searching n m d = false /\
  forall d', d0 <= d' < d -> keep_searching n m d' = true.
Proof.
  revert d0. induction fuel as [|fuel IH]; intros d0 Hd0 Hrun; [discriminate Hrun|].
  simpl in Hrun. unfold search_body at 1 in Hrun.
  destruct (keep_searching n m d0) eqn:Hk.
  - destruct (Z.eqb_spec d0 INT_MAX) as [_|Hne]; [discriminate Hrun|].
    destruct (IH (d0 + 1)) as (Hd & Hstop & Hkeep); [lia|exact Hrun|].
    split; [lia|]. split; [exact Hstop|].
    intros d' Hd'. destruct (Z.eq_dec d' d0) as [->|]; [exact Hk|apply Hkeep; lia].
  - injection Hrun as <-. split; [lia|]. split; [exact Hk|]. intros d' Hd'. lia.
Qed.

Lemma max_divisor_search_inv (n m d : Z) :
  max_divisor_search n m = Returns d ->
  2 <= d <= INT_MAX /\ keep_searching n m d = false /\
  forall d', 2 <= d' < d -> keep_searching n m d' = true.
Proof.
  unfold max_divisor_search. rewrite loop_pos_nat.
  destruct (loop_nat (search_body n m) (Pos.to_nat search_fuel) 2) as [r|] eqn:Hrun;
    [|discriminate].
  intros ->. apply (search_run_inv n m _ 2 d) in Hrun; [exact Hrun|].
  unfold INT_MAX. lia.
Qed.

(** The first stopping value of the search names the largest fitting
    divisor. *)
Lemma stop_is_largest (n m d1 : Z) :
  1 <= n -> m < n -> 2 <= d1 ->
  keep_searching n m d1 = false ->
  (forall d', 2 <= d' < d1 -> keep_searching n m d' = true) ->
  largest_fitting_divisor n m (n / d1) /\ n / (n / d1) = d1 /\ n / d1 * d1 = n.
Proof.
  intros Hn Hnm Hd1 Hstop Hkeep.
  apply keep_searching_false in Hstop as [Hmod Hfit].
  apply Z.mod_divide in Hmod; [|lia]. destruct Hmod as [c Hc].
  assert (Hdiv : n / d1 = c) by (subst n; apply Z.div_mul; lia).
  rewrite Hdiv in *.
  assert (Hc1 : 1 <= c) by nia.
  split; [|split].
  - split; [exact Hc1|]. split; [exists d1; lia|]. split; [exact Hfit|].
    intros c' Hc' [d' Hd'] Hfit'.
    assert (Hd'2 : 2 <= d') by nia.
    assert (Hstop' : keep_searching n m d' = false).
    { apply keep_searching_false. split.
      - apply Z.mod_divide; [lia|]. exists c'. lia.
      - replace n with (c' * d') by lia. rewrite Z.div_mul by lia. exact Hfit'. }
    assert (Hle : d1 <= d').
    { destruct (Z.le_gt_cases d1 d') as [|Hlt]; [assumption|].
      rewrite Hkeep in Hstop' by lia. discriminate. }
    nia.
  - subst n. rewrite Z.mul_comm. apply Z.div_mul. lia.
  - lia.
Qed.

Lemma largest_fitting_divisor_unique (n m c c' : Z) :
  largest_fitting_divisor n m c -> largest_fitting_divisor n m c' -> c = c'.
Proof.
  intros (H1 & H2 & H3 & H4) (H1' & H2' & H3' & H4').
  pose proof (H4 c' H1' H2' H3'). pose proof (H4' c H1 H2 H3). lia.
Qed.

Lemma tiling_returns_inv (n m c s : Z) :
  1 <= n -> tiling n m = Returns (c, s) ->
  largest_fitting_divisor n m c /\ s = n / c /\ c * s = n /\ s <= INT_MAX
  /\ (m < n -> 2 <= s).
Proof.
  intros Hn Hres. unfold tiling, COL_BLK_of in Hres.
  destruct (Z.leb_spec n m) as [Hfit|Hbig].
  - unfold checked_div in Hres. destruct (Z.eqb_spec n 0); [lia|].
    injection Hres as <- <-. rewrite Z.div_same by lia.
    split; [|split; [reflexivity|split; [lia|split; [unfold INT_MAX; lia|lia]]]].
    split; [exact Hn|]. split; [apply Z.divide_refl|]. split; [exact Hfit|].
    intros c' Hc' Hdiv _. apply Z.divide_pos_le; [lia|exact Hdiv].
  - destruct (max_divisor_search n m) as [d|f] eqn:Hsearch; [|discriminate Hres].
    apply max_divisor_search_inv in Hsearch as (Hd & Hstop & Hkeep).
    destruct (stop_is_largest n m d Hn Hbig (proj1 Hd) Hstop Hkeep)
      as (Hlarge & Hslab & Hprod).
    unfold checked_div in Hres.
    destruct (Z.eqb_spec (n / d) 0) as [Hz|_]; [rewrite Hz in Hprod; lia|].
    injection Hres as <- <-. rewrite Hslab.
    split; [exact Hlarge|]. split; [reflexivity|]. split; [exact Hprod|].
    split; lia.
Qed.

(** X1.  Whenever the tiling computation returns [(COL_BLK, N_SLAB)] for at
    least one neuron, [COL_BLK] is the largest divisor of the neuron count
    that fits the budget, the tiles cover the neurons exactly
    ([COL_BLK * N_SLAB = neurons]), [N_SLAB] fits an [int], and more than one
    slab is used when the neuron count exceeds the budget. *)
Theorem tiling_returns_largest (n m c s : Z) :
  1 <= n -> tiling n m = Returns (c, s) ->
  largest_fitting_divisor n m c /\ c * s = n /\ 1 <= s <= INT_MAX
  /\ (m < n -> 2 <= s).
Proof.
  intros Hn Hres.
  destruct (tiling_returns_inv n m c s Hn Hres) as (Hlarge & Hs & Hprod & Hint & Hmany).
  split; [exact Hlarge|]. split; [exact Hprod|]. split; [|exact Hmany].
  destruct Hlarge as (Hc & _). split; [nia|exact Hint].
Qed.

Lemma tiling_returns_largest_witness :
  largest_fitting_divisor 65536 12288 8192 /\ 8192 * 8 = 65536.
Proof.
  destruct (tiling_returns_largest 65536 12288 8192 8) as (H1 & H2 & _).
  - lia.
  - vm_compute. reflexivity.
  - split; [exact H1|exact H2].
Defined.

(** X2.  Degenerate inputs end in a fault, never in a pair: with no neuron
    the slab count is a division by zero, and with a budget of zero cells
    (shared memory smaller than one [T]) the search increments its [int]
    counter past [INT_MAX]. *)
Theorem tiling_degenerate (n m : Z) :
  (0 <= m -> tiling 0 m = Faults DivisionByZero) /\
  (1 <= n -> m <= 0 -> tiling n m = Faults SignedOverflow).
Proof.
  split.
  - intros Hm. unfold tiling, COL_BLK_of.
    destruct (Z.leb_spec 0 m); [reflexivity|lia].
  - intros Hn Hm. unfold tiling, COL_BLK_of.
    destruct (Z.leb_spec n m); [lia|].
    rewrite max_divisor_search_overflow; [reflexivity|].
    intros d Hd. unfold keep_searching.
    destruct (Z.le_gt_cases d n) as [Hle|Hgt].
    + apply orb_true_iff. right. apply Z.ltb_lt.
      assert (1 <= n / d) by (apply Z.div_le_lower_bound; lia). lia.
    + apply orb_true_iff. left. apply negb_true_iff, Z.eqb_neq.
      rewrite Z.mod_small by lia. lia.
Qed.

(** X3.  When the largest fitting divisor would need more than [INT_MAX]
    slabs, the computation ends in a signed overflow of the divisor
    counter. *)
Theorem tiling_overflows_beyond_int (n m c : Z) :
  1 <= n -> 1 <= m ->
  largest_fitting_divisor n m c -> INT_MAX < n / c ->
  tiling n m = Faults SignedOverflow.
Proof.
  intros Hn Hm Hc Hmany.
  destruct (Z.le_gt_cases n m) as [Hfit|Hbig].
  - assert (c = n).
    { apply (largest_fitting_divisor_unique n m); [exact Hc|].
      split; [exact Hn|]. split; [apply Z.divide_refl|]. split; [exact Hfit|].
      intros c' Hc' Hdiv _. apply Z.divide_pos_le; [lia|exact Hdiv]. }
    subst c. rewrite Z.div_same in Hmany by lia. unfold INT_MAX in Hmany. lia.
  - destruct (first_stop_exists n m Hm Hbig) as (d1 & Hd1 & Hstop & Hkeep & Hlarge & Hslab).
    rewrite (tiling_search n m d1 Hbig Hd1 Hstop Hkeep).
    rewrite (largest_fitting_divisor_unique n m c (n / d1) Hc Hlarge) in Hmany.
    rewrite Hslab in Hmany.
    destruct (Z.leb_spec d1 INT_MAX); [lia|reflexivity].
Qed.

Lemma tiling_overflows_beyond_int_witness :
  tiling 2147483648 1 = Faults SignedOverflow.
Proof.
  apply (tiling_overflows_beyond_int 2147483648 1 1); [lia|lia| |].
  - split; [lia|]. split; [apply Z.divide_1_l|]. split; [lia|].
    intros c' _ _ Hc'. exact Hc'.
  - rewrite Z.div_1_r. unfold INT_MAX. lia.
Defined.

(** X4.  A larger budget never gives a narrower tile: if the computation
    returns for budgets [m <= m'], the tile for [m'] is at least as wide and
    needs at most as many slabs. *)
Theorem tiling_budget_monotone (n m m' c s c' s' : Z) :
  1 <= n -> m <= m' ->
  tiling n m = Returns (c, s) -> tiling n m' = Returns (c', s') ->
  c <= c' /\ s' <= s.
Proof.
  intros Hn Hmm Hres Hres'.
  destruct (tiling_returns_inv n m c s Hn Hres) as ((Hc1 & Hcdiv & Hcm & _) & Hs & _).
  destruct (tiling_returns_inv n m' c' s' Hn Hres') as ((_ & _ & _ & Hmax) & Hs' & _).
  assert (Hle : c <= c') by (apply Hmax; [exact Hc1|exact Hcdiv|lia]).
  split; [exact Hle|]. subst s s'. apply Z.div_le_compat_l; lia.
Qed.

Lemma tiling_budget_monotone_witness : (4096 <= 8192 /\ 8 <= 16)%Z.
Proof.
  apply (tiling_budget_monotone 65536 6144 12288 4096 16 8192 8).
  - lia.
  - lia.
  - vm_compute. reflexivity.
  - vm_compute. reflexivity.
Defined.

End TilingMore.

(** ** Row compaction: what the scan leaves alone *)

Section CompactionMore.

Import BFOneGpu.

Lemma non_empty_rows_frame (n : nat) (rlenY rowsY : list Z) :
  drop (_non_empty_rows n rlenY rowsY).2 (_non_empty_rows n rlenY rowsY).1
  = drop (_non_empty_rows n rlenY rowsY).2 rowsY.
Proof.
  induction n as [|n IH]; [reflexivity|].
  rewrite non_empty_rows_S. unfold scan_step.
  destruct (_non_empty_rows n rlenY rowsY) as [rows nnz]. simpl in *.
  destruct (Z.ltb_spec 0 (default 0%Z (rlenY !! n))); simpl; [|exact IH].
  rewrite drop_insert_lt by lia.
  replace (S nnz) with (nnz + 1) by lia.
  rewrite <- !drop_drop, IH. reflexivity.
Qed.

(** X5.  For every batch size and arrays [rlenY] and [rowsY] of at least
    [num_inputs] cells each, so that every access of the loop is inside its
    array, [_non_empty_rows] counts exactly the rows of positive length,
    never more than [num_inputs]; it keeps the size of [rowsY] and leaves
    every cell of [rowsY] from index [nnz] on as it was.  In particular,
    when no row has a positive length, [nnz] is 0 and [rowsY] is
    untouched. *)
Theorem non_empty_rows_count_and_frame (num_inputs : nat) (rlenY rowsY : list Z) :
  num_inputs <= length rlenY ->
  num_inputs <= length rowsY ->
  (_non_empty_rows num_inputs rlenY rowsY).2 = length (positive_rows num_inputs rlenY)
  /\ (_non_empty_rows num_inputs rlenY rowsY).2 <= num_inputs
  /\ length (_non_empty_rows num_inputs rlenY rowsY).1 = length rowsY
  /\ drop (_non_empty_rows num_inputs rlenY rowsY).2 (_non_empty_rows num_inputs rlenY rowsY).1
     = drop (_non_empty_rows num_inputs rlenY rowsY).2 rowsY
  /\ (positive_rows num_inputs rlenY = [] ->
      _non_empty_rows num_inputs rlenY rowsY = (rowsY, 0)).
Proof.
  intros _ _.
  destruct (non_empty_rows_spec num_inputs rlenY rowsY) as (Hcnt & Hlen & _).
  pose proof (non_empty_rows_frame num_inputs rlenY rowsY) as Hframe.
  pose proof (positive_rows_length num_inputs rlenY) as Hle.
  split; [exact Hcnt|]. split; [lia|]. split; [exact Hlen|]. split; [exact Hframe|].
  intros Hnone. rewrite Hnone in Hcnt. simpl in Hcnt.
  rewrite Hcnt in Hframe. simpl in Hframe.
  destruct (_non_empty_rows num_inputs rlenY rowsY) as [rows nnz]. simpl in *.
  subst nnz. rewrite !drop_0 in Hframe. subst rows. reflexivity.
Qed.

Lemma non_empty_rows_count_and_frame_witness :
  (_non_empty_rows 3 [0; 2; 0]%Z [9; 9; 9]%Z).2 = length (positive_rows 3 [0; 2; 0]%Z)
  /\ (_non_empty_rows 3 [0; 2; 0]%Z [9; 9; 9]%Z).2 <= 3
  /\ length (_non_empty_rows 3 [0; 2; 0]%Z [9; 9; 9]%Z).1 = length [9; 9; 9]%Z
  /\ drop (_non_empty_rows 3 [0; 2; 0]%Z [9; 9; 9]%Z).2
          (_non_empty_rows 3 [0; 2; 0]%Z [9; 9; 9]%Z).1
     = drop (_non_empty_rows 3 [0; 2; 0]%Z [9; 9; 9]%Z).2 [9; 9; 9]%Z
  /\ (positive_rows 3 [0; 2; 0]%Z = [] ->
      _non_empty_rows 3 [0; 2; 0]%Z [9; 9; 9]%Z = ([9; 9; 9]%Z, 0)).
Proof.
  apply (non_empty_rows_count_and_frame 3 [0; 2; 0]%Z [9; 9; 9]%Z); simpl; lia.
Defined.

End CompactionMore.

(** ** The pipeline: what each kernel is handed *)

Section DataFlow.

Import Streams BFOneGpu.

Context {T : Type}.
Variable zeroT : T.
Variable bf_inference : @launch T -> @kernel_view T -> @kernel_view T.
Variable identify : nat -> nat -> list T -> list Z -> list T * list Z.
Variable read_input_binary :
  list T -> list Z -> list Z -> list T * list Z * list Z * nat.

Local Abbreviation run_to := (run_layers zeroT bf_inference).
Local Abbreviation launched := (launch_bf_inference bf_inference).

Lemma succ_mod2 (k : nat) : S k mod 2 = (k + 1) mod 2.
Proof. replace (S k) with (k + 1) by lia. reflexivity. Qed.








End DataFlow.

Section WeightsAndActivations.

Import Streams BFOneGpu TraceView.

Context {T : Type}.
Variable zeroT : T.
Variable bf_inference : @launch T -> @kernel_view T -> @kernel_view T.
Variable identify : nat -> nat -> list T -> list Z -> list T * list Z.
Variable read_input_binary :
  list T -> list Z -> list Z -> list T * list Z * list Z * nat.

Local Abbreviation run_to := (run_layers zeroT bf_inference).
Local Abbreviation launched := (launch_bf_inference bf_inference).

(** The weight buffers: a kernel can write the one it reads, the copy
    writes the other one. *)
Lemma launch_dW (o : object) (cur_layer : nat) (s : state) :
  slot (d_W (launched o cur_layer s)) ((cur_layer + 1) mod 2)
  = slot (d_W s) ((cur_layer + 1) mod 2)
  /\ forall j, length (slot (d_W (launched o cur_layer s)) j) = length (slot (d_W s) j).
Proof.
  unfold launch_bf_inference. cbv zeta. cbn [d_W kv_W]. split.
  - apply slot_set_slot_other.
  - intros j. apply length_slot_set_slot, length_store.
Qed.

Lemma before_launch_dW (o : @object T) (cur_layer : nat) (s : state) :
  slot (d_W (before_launch o cur_layer s)) (cur_layer mod 2)
  = slot (d_W s) (cur_layer mod 2)
  /\ (forall j, length (slot (d_W (before_launch o cur_layer s)) j)
                = length (slot (d_W s) j))
  /\ (cur_layer <> _num_layers o - 1 ->
      slot (d_W (before_launch o cur_layer s)) ((cur_layer + 1) mod 2)
      = store (slot (d_W s) ((cur_layer + 1) mod 2))
              (take (sizeof_int_cells (_pp_wsize o))
                    (drop ((cur_layer + 1) * _pp_wlen o) (_h_pinned_weight o)))).
Proof.
  unfold before_launch.
  destruct (Nat.eqb_spec cur_layer (_num_layers o - 1)) as [Heq|Hne]; simpl negb; cbv iota.
  - split; [reflexivity|]. split; [reflexivity|]. intros Hne. contradiction.
  - unfold prefetch. cbv zeta. cbn [d_W]. split; [|split].
    + apply slot_set_slot_other.
    + intros j. apply length_slot_set_slot, length_store.
    + intros _. apply slot_set_slot.
Qed.

Lemma layer_dW (o : object) (num_inputs : nat) (s : state) (cur_layer : nat) :
  d_W (layer zeroT bf_inference o num_inputs s cur_layer)
  = d_W (launched o cur_layer (before_launch o cur_layer s)).
Proof. reflexivity. Qed.

Lemma run_layers_dW_length (o : object) (num_inputs k : nat) (s : state) (j : nat) :
  length (slot (d_W (run_to o num_inputs k s)) j) = length (slot (d_W s) j).
Proof.
  induction k as [|k IH]; [reflexivity|].
  rewrite run_layers_S, layer_dW.
  destruct (launch_dW o k (before_launch o k (run_to o num_inputs k s))) as (_ & ->).
  destruct (before_launch_dW o k (run_to o num_inputs k s)) as (_ & -> & _).
  exact IH.
Qed.

Lemma preprocess_dW (o : object) (u : uninitialised) (num_inputs : nat) :
  slot (d_W (preprocess read_input_binary o u num_inputs)) 0
  = store (cudaMalloc (junk_W u 0) (sizeof_int_cells (_pp_wsize o)))
          (take (sizeof_int_cells (_pp_wsize o)) (_h_pinned_weight o))
  /\ forall j, length (slot (d_W (preprocess read_input_binary o u num_inputs)) j)
               = sizeof_int_cells (_pp_wsize o).
Proof.
  unfold preprocess. cbv zeta. cbn [d_W]. split; [reflexivity|].
  intros j. destruct j; cbn [slot fst snd]; rewrite ?length_store; apply cudaMalloc_length.
Qed.

Lemma layer_block_length (o : @object T) (k : nat) :
  (k + 1) * _pp_wlen o <= length (_h_pinned_weight o) ->
  length (take (_pp_wlen o) (drop (k * _pp_wlen o) (_h_pinned_weight o))) = _pp_wlen o.
Proof. intros Hlen. rewrite length_take, length_drop. lia. Qed.

(** X7.  For every layer [L] of the run and every kernel, even one that
    writes into the weights it reads: when the kernel of layer [L] is
    launched, the buffer [d_W[L mod 2]] it is pointed at holds exactly the
    block of layer [L] of the pinned region, provided the object's sizes
    agree ([_pp_wsize = sizeof(int) * _pp_wlen]) and the region holds the
    blocks of layers [0..L]. *)
Theorem weights_at_launch
    (o : object) (u : uninitialised) (num_inputs L : nat) :
  L < _num_layers o ->
  _pp_wsize o = 4 * _pp_wlen o ->
  (L + 1) * _pp_wlen o <= length (_h_pinned_weight o) ->
  slot (d_W (at_launch zeroT bf_inference o num_inputs L
               (preprocess read_input_binary o u num_inputs)))
       (L mod 2)
  = take (_pp_wlen o) (drop (L * _pp_wlen o) (_h_pinned_weight o)).
Proof.
  intros HL Hsize Hregion.
  assert (Hcells : sizeof_int_cells (_pp_wsize o) = _pp_wlen o).
  { unfold sizeof_int_cells. rewrite Hsize, Nat.mul_comm. apply Nat.div_mul. lia. }
  unfold at_launch.
  destruct (before_launch_dW o L
              (run_to o num_inputs L
                 (create_streams (preprocess read_input_binary o u num_inputs))))
    as (-> & _ & _).
  destruct L as [|k].
  - change (run_to o num_inputs 0 ?x) with x.
    change (d_W (create_streams ?x)) with (d_W x). change (0 mod 2) with 0.
    destruct (preprocess_dW o u num_inputs) as (-> & _).
    rewrite Hcells. change (0 * _pp_wlen o) with 0. rewrite drop_0.
    apply store_same_length.
    rewrite cudaMalloc_length.
    pose proof (layer_block_length o 0 Hregion) as Hblock.
    change (0 * _pp_wlen o) with 0 in Hblock. rewrite drop_0 in Hblock. exact Hblock.
  - rewrite run_layers_S, layer_dW, succ_mod2.
    destruct (launch_dW o k
                (before_launch o k
                   (run_to o num_inputs k
                      (create_streams (preprocess read_input_binary o u num_inputs)))))
      as (-> & _).
    destruct (before_launch_dW o k
                (run_to o num_inputs k
                   (create_streams (preprocess read_input_binary o u num_inputs))))
      as (_ & _ & ->); [|lia].
    rewrite Hcells. replace (k + 1) with (S k) by lia.
    apply store_same_length.
    rewrite (layer_block_length o (S k)) by exact Hregion.
    rewrite run_layers_dW_length.
    change (d_W (create_streams ?x)) with (d_W x).
    destruct (preprocess_dW o u num_inputs) as (_ & ->). symmetry. exact Hcells.
Qed.

(** The activation buffers: the end of a pass clears the consumed buffer
    and leaves the produced one alone. *)
Lemma layer_Y_output (o : object) (num_inputs : nat) (s : state) (cur_layer : nat) :
  slot (Y (layer zeroT bf_inference o num_inputs s cur_layer)) ((cur_layer + 1) mod 2)
  = slot (Y (launched o cur_layer (before_launch o cur_layer s))) ((cur_layer + 1) mod 2).
Proof.
  unfold layer. cbv zeta.
  change (Y (synchronize Stream0 ?x)) with (Y x).
  unfold reset_consumed at 1. cbn [Y].
  destruct (slot_set_slot_other
              (Y (compact_rows num_inputs cur_layer
                    (synchronize Stream1
                       (launched o cur_layer (before_launch o cur_layer s)))))
              cur_layer
              (store
                 (slot (Y (compact_rows num_inputs cur_layer
                             (synchronize Stream1
                                (launched o cur_layer (before_launch o cur_layer s)))))
                       (cur_layer mod 2))
                 (replicate (num_inputs * _num_neurons_per_layer o) zeroT)))
    as (-> & _).
  reflexivity.
Qed.

(** X8.  For every layer [L], every kernel and every starting state: the
    input buffer handed to the kernel of layer [L + 1] holds exactly what
    the launch of layer [L] left in its output buffer; neither the scan, nor
    the clearing of the consumed buffer, nor the prefetch touches it. *)
Theorem next_layer_reads_previous_output
    (o : object) (num_inputs : nat) (s : state) (L : nat) :
  slot (Y (at_launch zeroT bf_inference o num_inputs (S L) s)) (S L mod 2)
  = slot (Y (launched o L (at_launch zeroT bf_inference o num_inputs L s)))
         ((L + 1) mod 2).
Proof.
  unfold at_launch. rewrite Y_before_launch, run_layers_S, succ_mod2.
  apply layer_Y_output.
Qed.

(** X9.  For every even, nonzero [num_layers]: the last kernel writes
    [Y[0]], the clearing that follows hits [Y[1]], and [identify] is handed
    [Y[0]] exactly as the launch of the last layer left it. *)
Theorem identify_reads_last_output_even
    (o : object) (num_inputs : nat) (s : state) :
  Nat.Even (_num_layers o) -> 0 < _num_layers o ->
  slot (Y (layers_done zeroT bf_inference o num_inputs s)) 0
  = slot (Y (launched o (_num_layers o - 1)
               (at_launch zeroT bf_inference o num_inputs (_num_layers o - 1) s))) 0
  /\ exists before,
       trace (gpu (_infer_BF zeroT bf_inference identify o num_inputs s))
       = before
         ++ [LaunchInference (_num_layers o - 1) 1 1 1 1 0 0;
             StreamSynchronize Stream1; NonEmptyRows 0 0; MemsetY 1;
             StreamSynchronize Stream0;
             LaunchIdentify 0; DeviceSynchronize].
Proof.
  intros [k Hk] Hpos.
  assert (Hlast : _num_layers o = S (2 * k - 1)) by lia.
  assert (Hodd : (2 * k - 1) mod 2 = 1 /\ (2 * k - 1 + 1) mod 2 = 0).
  { destruct (mod2_cases (2 * k - 1)) as [[Ha Hb]|?]; [|assumption].
    pose proof (Nat.div_mod_eq (2 * k - 1) 2). lia. }
  destruct Hodd as [Hm1 Hm0].
  replace (_num_layers o - 1) with (2 * k - 1) by lia.
  split.
  - unfold layers_done. rewrite Hlast, run_layers_S.
    pose proof (layer_Y_output o num_inputs
                  (run_to o num_inputs (2 * k - 1) (create_streams s)) (2 * k - 1)) as Hout.
    rewrite Hm0 in Hout. exact Hout.
  - rewrite infer_BF_gpu. cbn [trace].
    rewrite (pipeline_events_at (_num_layers o) (2 * k - 1)) by lia.
    replace (_num_layers o - S (2 * k - 1)) with 0 by lia. cbn [seq flat_map app].
    exists (flat_map (layer_events (_num_layers o)) (seq 0 (2 * k - 1))).
    f_equal. unfold layer_events.
    replace (negb (2 * k - 1 =? _num_layers o - 1)) with false
      by (symmetry; apply negb_false_iff, Nat.eqb_eq; lia).
    rewrite Hm0, Hm1. reflexivity.
Qed.

Lemma launched_layers_layer_events (num_layers cur_layer : nat) :
  launched_layers (layer_events num_layers cur_layer) = [cur_layer].
Proof. unfold layer_events. destruct (negb _); reflexivity. Qed.

Lemma launched_layers_passes (num_layers k : nat) :
  launched_layers (flat_map (layer_events num_layers) (seq 0 k)) = seq 0 k.
Proof.
  induction k as [|k IH]; [reflexivity|].
  rewrite !seq_S, flat_map_app. unfold launched_layers in *.
  rewrite omap_app, IH. cbn [flat_map]. rewrite app_nil_r.
  f_equal. apply launched_layers_layer_events.
Qed.

(** X10.  For every [num_layers] and every kernel, [_infer_BF] launches the
    inference kernel exactly once per layer, for the layers
    [0, 1, ..., num_layers - 1] in that order. *)
Theorem kernels_launched_in_layer_order
    (o : object) (num_inputs : nat) (s : state) :
  launched_layers (trace (gpu (_infer_BF zeroT bf_inference identify o num_inputs s)))
  = seq 0 (_num_layers o).
Proof.
  rewrite infer_BF_gpu. cbn [trace]. unfold pipeline_events, launched_layers.
  rewrite omap_app. cbn [omap launched_layer]. rewrite app_nil_r.
  apply launched_layers_passes.
Qed.

(** X11.  For every layer [L] of the run: when its kernel is launched, the
    only work in flight is the copy of the weights of layer [L + 1], if
    there is such a layer; no earlier kernel and no earlier copy is still
    pending. *)
Theorem only_next_copy_in_flight_at_launch
    (o : object) (num_inputs : nat) (s : state) (L : nat) :
  L < _num_layers o ->
  inflight (gpu (at_launch zeroT bf_inference o num_inputs L s))
  = if L + 1 <? _num_layers o
    then [(Stream0, MemcpyAsync ((L + 1) mod 2) (L + 1))]
    else [].
Proof.
  intros HL. unfold at_launch.
  rewrite gpu_before_launch, run_layers_gpu by reflexivity.
  destruct (Nat.ltb_spec (L + 1) (_num_layers o)) as [Hnext|Hlast].
  - replace (negb (L =? _num_layers o - 1)) with true
      by (symmetry; apply negb_true_iff, Nat.eqb_neq; lia).
    reflexivity.
  - replace (negb (L =? _num_layers o - 1)) with false
      by (symmetry; apply negb_false_iff, Nat.eqb_eq; lia).
    reflexivity.
Qed.

End WeightsAndActivations.

(** ** The weight block: sections and padding *)

Section LayoutMore.

Import Layout.
Local Open Scope Z_scope.

Lemma size_wrap_small (z : Z) : 0 <= z <= SIZE_MAX -> size_wrap z = z.
Proof. intros Hz. unfold size_wrap, SIZE_MOD, SIZE_MAX in *. apply Z.mod_small. lia. Qed.

Lemma make_exact (T : scalar) (n N_SLAB nnz : Z) :
  0 <= n -> 0 <= N_SLAB -> 0 <= nnz ->
  sizeof_int * (n * N_SLAB + nnz + 2) + sizeof T * nnz <= SIZE_MAX ->
  _p_w_index_len (make T n N_SLAB nnz) = n * N_SLAB + nnz + 1
  /\ 0 <= _pad (make T n N_SLAB nnz) <= 1
  /\ _pp_w_index_len (make T n N_SLAB nnz) = n * N_SLAB + nnz + 1 + _pad (make T n N_SLAB nnz)
  /\ _pp_wlen (make T n N_SLAB nnz)
     = n * N_SLAB + nnz + 1 + _pad (make T n N_SLAB nnz) + sizeof T / sizeof_float * nnz
  /\ _pp_wsize (make T n N_SLAB nnz)
     = sizeof_int * (n * N_SLAB + nnz + 1 + _pad (make T n N_SLAB nnz)) + sizeof T * nnz.
Proof.
  intros Hn HN Hnnz Hfits.
  assert (HnN : 0 <= n * N_SLAB) by nia.
  assert (Hsz : 4 <= sizeof T <= 8) by (destruct T; simpl; lia).
  assert (Hratio : 1 <= sizeof T / sizeof_float <= 2)
    by (destruct T; simpl sizeof; unfold sizeof_float;
        [change (4 / 4) with 1|change (8 / 4) with 2]; lia).
  assert (Hvals : 0 <= sizeof T * nnz /\ 0 <= sizeof T / sizeof_float * nnz
                  /\ sizeof T / sizeof_float * nnz <= sizeof T * nnz) by nia.
  unfold sizeof_int, SIZE_MAX in *.
  assert (Hp : size_add (size_add (size_mul n N_SLAB) nnz) 1 = n * N_SLAB + nnz + 1).
  { unfold size_add, size_mul.
    rewrite (size_wrap_small (n * N_SLAB)) by (unfold SIZE_MAX; lia).
    rewrite (size_wrap_small (n * N_SLAB + nnz)) by (unfold SIZE_MAX; lia).
    apply size_wrap_small. unfold SIZE_MAX. lia. }
  unfold make. cbn [_p_w_index_len _pad _pp_w_index_len _pp_wlen _pp_wsize].
  rewrite Hp.
  set (pad := if negb ((n * N_SLAB + nnz + 1) mod sizeof T =? 0) then size_add 0 1 else 0).
  assert (Hpad : 0 <= pad <= 1).
  { subst pad. destruct (negb _); [|lia].
    unfold size_add. rewrite size_wrap_small; unfold SIZE_MAX; lia. }
  assert (Hpp : size_add (n * N_SLAB + nnz + 1) pad = n * N_SLAB + nnz + 1 + pad).
  { unfold size_add. rewrite size_wrap_small; unfold SIZE_MAX; lia. }
  rewrite Hpp.
  split; [reflexivity|]. split; [exact Hpad|]. split; [reflexivity|]. split.
  - unfold size_add, size_mul.
    rewrite (size_wrap_small (sizeof T / sizeof_float * nnz)) by (unfold SIZE_MAX; lia).
    apply size_wrap_small. unfold SIZE_MAX. lia.
  - unfold size_add, size_mul.
    rewrite (size_wrap_small (4 * _)) by (unfold SIZE_MAX; lia).
    rewrite (size_wrap_small (sizeof T * nnz)) by (unfold SIZE_MAX; lia).
    apply size_wrap_small. unfold SIZE_MAX. lia.
Qed.

(** X12.  When the size of a layer block fits [size_t], the three sections
    the launch points the kernel at lie inside the block of [_pp_wlen] cells
    without overlap: the row offsets take [neurons * N_SLAB + 1] cells, the
    column indices that start there end [_max_nnz_per_layer] cells later at
    [_p_w_index_len], where the values start; the values, [_max_nnz_per_layer]
    cells of type [T], end at most one padding cell before the end of the
    block; and the block is [_pp_wsize = sizeof(int) * _pp_wlen] bytes. *)
Theorem weight_sections_fit_block (T : scalar) (n N_SLAB nnz : Z) :
  0 <= n -> 0 <= N_SLAB -> 0 <= nnz ->
  sizeof_int * (n * N_SLAB + nnz + 2) + sizeof T * nnz <= SIZE_MAX ->
  (n * N_SLAB + 1) + nnz = _p_w_index_len (make T n N_SLAB nnz)
  /\ _p_w_index_len (make T n N_SLAB nnz) + sizeof T / sizeof_float * nnz
     <= _pp_wlen (make T n N_SLAB nnz)
  /\ _pp_wlen (make T n N_SLAB nnz)
     <= _p_w_index_len (make T n N_SLAB nnz) + sizeof T / sizeof_float * nnz + 1
  /\ _pp_wsize (make T n N_SLAB nnz) = sizeof_int * _pp_wlen (make T n N_SLAB nnz).
Proof.
  intros Hn HN Hnnz Hfits.
  destruct (make_exact T n N_SLAB nnz Hn HN Hnnz Hfits) as (Hp & Hpad & _ & Hlen & Hsize).
  rewrite Hp, Hlen, Hsize. split; [lia|]. split; [lia|]. split; [lia|].
  unfold sizeof_int, sizeof_float.
  destruct T; simpl sizeof; [change (4 / 4) with 1|change (8 / 4) with 2]; lia.
Qed.

Lemma weight_sections_fit_block_witness :
  _p_w_index_len (make Double 1024 1 32768) + 2 * 32768
  <= _pp_wlen (make Double 1024 1 32768)
  /\ _pp_wsize (make Double 1024 1 32768) = 4 * _pp_wlen (make Double 1024 1 32768).
Proof.
  destruct (weight_sections_fit_block Double 1024 1 32768) as (_ & H2 & _ & H4).
  - lia.
  - lia.
  - lia.
  - vm_compute. discriminate.
  - split; [exact H2|exact H4].
Defined.

(** X13.  For [T = double] and all operand values, the padded index length
    [_pp_w_index_len] is even, so that the index section is a whole number
    of [double]s long, exactly when [_p_w_index_len] is a multiple of 8 or
    odd; an even [_p_w_index_len] that is not a multiple of 8 is padded to an
    odd length. *)
Theorem double_padding_parity (n N_SLAB nnz : Z) :
  _pp_w_index_len (make Double n N_SLAB nnz) mod 2 = 0
  <-> (_p_w_index_len (make Double n N_SLAB nnz) mod 8 = 0
       \/ _p_w_index_len (make Double n N_SLAB nnz) mod 2 = 1).
Proof.
  unfold make. cbn [_p_w_index_len _pp_w_index_len].
  set (p := size_add (size_add (size_mul n N_SLAB) nnz) 1).
  assert (Hp : 0 <= p <= SIZE_MAX) by (subst p; unfold size_add at 1; apply size_wrap_range).
  clearbody p. simpl sizeof.
  unfold size_add, size_wrap, SIZE_MOD, SIZE_MAX in *.
  change (2 ^ 64) with 18446744073709551616 in *.
  destruct (Z.eqb_spec (p mod 8) 0) as [H8|H8]; simpl negb; cbv iota.
  - rewrite Z.add_0_r. Z.div_mod_to_equations. lia.
  - change ((0 + 1) mod 18446744073709551616) with 1.
    Z.div_mod_to_equations. lia.
Qed.

End LayoutMore.

(** ** The converter's [main] *)

Section ConverterMore.

Import Tiling Converter.
Local Open Scope Z_scope.

Lemma tiling_total_within_int (n m : Z) :
  1 <= n <= INT_MAX -> 1 <= m ->
  exists c, largest_fitting_divisor n m c /\ tiling n m = Returns (c, n / c).
Proof.
  intros Hn Hm. destruct (Z.le_gt_cases n m) as [Hfit|Hbig].
  - exists n. split.
    + split; [lia|]. split; [apply Z.divide_refl|]. split; [exact Hfit|].
      intros c' Hc' Hdiv _. apply Z.divide_pos_le; [lia|exact Hdiv].
    + apply tiling_fits; lia.
  - destruct (first_stop_exists n m Hm Hbig) as (d1 & Hd1 & Hstop & Hkeep & Hlarge & Hslab).
    exists (n / d1). split; [exact Hlarge|].
    rewrite (tiling_search n m d1 Hbig Hd1 Hstop Hkeep), Hslab.
    destruct (Z.leb_spec d1 INT_MAX); [reflexivity|lia].
Qed.

Lemma golden_loop_calls (n : Z) (calls : list call) :
  golden_loop n calls
  = Returns (calls ++ [ConvertGolden n 120 60000; ConvertGolden n 480 60000;
                       ConvertGolden n 1920 60000]).
Proof.
  unfold golden_loop, golden_fuel. cbv -[app]. rewrite <- !app_assoc. reflexivity.
Qed.

(** X14.  For every neuron count that fits an [int] and a budget of at least
    one [float], [main] converts the weights of [num_layers] layers with the
    largest fitting tile, then the 60000 input rows, then the golden files:
    for exactly the requested [num_layers] when [golden_all] is false, and
    for exactly 120, 480 and 1920 layers, whatever [num_layers] is, when
    [golden_all] is true. *)
Theorem main_conversions (n num_layers : Z) (golden_all : bool) (sharedMemPerBlock : Z) :
  1 <= n <= INT_MAX -> 1 <= sharedMemPerBlock / sizeof_float ->
  exists c,
    largest_fitting_divisor n (sharedMemPerBlock / sizeof_float) c /\
    main n num_layers golden_all sharedMemPerBlock
    = Returns ([ConvertWeights num_layers n n c (n / c) 100000; ConvertInput 60000 n]
               ++ (if golden_all
                   then [ConvertGolden n 120 60000; ConvertGolden n 480 60000;
                         ConvertGolden n 1920 60000]
                   else [ConvertGolden n num_layers 60000])).
Proof.
  intros Hn Hm.
  destruct (tiling_total_within_int n (sharedMemPerBlock / sizeof_float) Hn Hm)
    as (c & Hc & Hres).
  exists c. split; [exact Hc|].
  unfold main, converter_tiling. rewrite Hres.
  destruct golden_all; simpl negb; cbv iota.
  - apply golden_loop_calls.
  - reflexivity.
Qed.

Lemma main_conversions_witness :
  exists c,
    main 1024 240 true 49152
    = Returns [ConvertWeights 240 1024 1024 c (1024 / c) 100000; ConvertInput 60000 1024;
               ConvertGolden 1024 120 60000; ConvertGolden 1024 480 60000;
               ConvertGolden 1024 1920 60000].
Proof.
  destruct (main_conversions 1024 240 true 49152) as (c & _ & H).
  - unfold INT_MAX. lia.
  - vm_compute. discriminate.
  - exists c. exact H.
Defined.

End ConverterMore.

(** ** The further properties on the small instance *)

Section SampleMore.

Import Streams BFOneGpu.


Lemma weights_at_launch_witness :
  slot (d_W (at_launch 0%Z Sample.kernel (Sample.engine 3) 2 2
               (preprocess Sample.read_input (Sample.engine 3) Sample.garbage 2)))
       (2 mod 2)
  = take 6 (drop (2 * 6) (replicate (6 * 3) 0%Z)).
Proof.
  apply (weights_at_launch 0%Z Sample.kernel Sample.read_input
           (Sample.engine 3) Sample.garbage 2 2).
  - simpl. lia.
  - reflexivity.
  - simpl. lia.
Defined.

Lemma identify_reads_last_output_even_witness :
  slot (Y (layers_done 0%Z Sample.kernel (Sample.engine 2) 2
             (preprocess Sample.read_input (Sample.engine 2) Sample.garbage 2))) 0
  = slot (Y (launch_bf_inference Sample.kernel (Sample.engine 2) 1
               (at_launch 0%Z Sample.kernel (Sample.engine 2) 2 1
                  (preprocess Sample.read_input (Sample.engine 2) Sample.garbage 2)))) 0.
Proof.
  destruct (identify_reads_last_output_even 0%Z Sample.kernel Sample.identify
              (Sample.engine 2) 2
              (preprocess Sample.read_input (Sample.engine 2) Sample.garbage 2))
    as (H & _).
  - exists 1. reflexivity.
  - simpl. lia.
  - exact H.
Defined.

Lemma only_next_copy_in_flight_at_launch_witness :
  inflight (gpu (at_launch 0%Z Sample.kernel (Sample.engine 3) 2 1
                   (preprocess Sample.read_input (Sample.engine 3) Sample.garbage 2)))
  = [(Stream0, MemcpyAsync 0 2)].
Proof.
  apply (only_next_copy_in_flight_at_launch 0%Z Sample.kernel (Sample.engine 3) 2
           (preprocess Sample.read_input (Sample.engine 3) Sample.garbage 2) 1).
  simpl. lia.
Defined.

End SampleMore.
